(** * The conversation control loop of the agentic chatbot

    A shallow embedding of [src/agent/graph.py] (the [AgenticChatBot] session
    and its two graph nodes), of the tools of [src/utils/tools.py] and of the
    chatbot interaction of [src/app.py], together with the framework
    operations these call: the message trimming of [langchain_core] and the
    graph run of [langgraph].

    Python objects that are mutated in place are passed through explicitly:
    a function that mutates [self], a tool call or the outside world returns
    the new value next to its result. *)

From stdpp Require Import gmap strings list pretty.
From Stdlib Require Import ZArith Lia Ascii.

Open Scope string_scope.
Open Scope list_scope.

(* ===================================================================== *)
(** ** Python values and exceptions *)
(* ===================================================================== *)

(** The exceptions that can travel through the session.  [Error] stands for
    any other exception, those of the collaborators (memory service, tool
    argument validation) among them; it carries what [str(e)] gives. *)
Inductive Exception :=
  | KeyError (key : string)
  | IndexError (msg : string)
  | ValueError (msg : string)
  | GraphRecursionError (limit : Z)
  | Error (msg : string).

(** [str(e)], as the f-string [f"Error: {e}"] renders it; of the library's
    text for the recursion limit, the first sentence. *)
Definition py_str (e : Exception) : string :=
  match e with
  | KeyError key => "'" +:+ key +:+ "'"
  | IndexError msg | ValueError msg | Error msg => msg
  | GraphRecursionError limit =>
      "Recursion limit of " +:+ pretty limit +:+
      " reached without hitting a stop condition."
  end.

(** A Python call either returns a value or raises. *)
Inductive Outcome (A : Type) :=
  | Returned (a : A)
  | Raised (e : Exception).
Arguments Returned {A} a.
Arguments Raised {A} e.

(** [try: body  except Exception as e: handler(e)] *)
Definition try_except {A} (body : Outcome A) (handler : Exception → Outcome A)
  : Outcome A :=
  match body with
  | Returned a => Returned a
  | Raised e => handler e
  end.

(* ===================================================================== *)
(** ** Config files *)
(* ===================================================================== *)

(** A value that [yaml.safe_load] gives. *)
#[warnings="-register-all"]
Inductive Yaml :=
  | YNull
  | YStr (s : string)
  | YInt (n : Z)
  | YList (l : list Yaml)
  | YMap (m : gmap string Yaml).

(** [value[key]], the key a string *)
Definition getitem (value : Yaml) (key : string) : Outcome Yaml :=
  match value with
  | YMap m =>
      match m !! key with
      | Some v => Returned v
      | None => Raised (KeyError key)
      end
  | YList _ => Raised (Error "list indices must be integers or slices, not str")
  | YStr _ => Raised (Error "string indices must be integers, not 'str'")
  | YInt _ => Raised (Error "'int' object is not subscriptable")
  | YNull => Raised (Error "'NoneType' object is not subscriptable")
  end.

(** [value[i]], the index a natural number.  (On a mapping it is a
    [KeyError] whose key is the number, and whose text is the number
    unquoted.) *)
Definition getindex (value : Yaml) (i : nat) : Outcome Yaml :=
  match value with
  | YList l =>
      match l !! i with
      | Some v => Returned v
      | None => Raised (IndexError "list index out of range")
      end
  | YStr s =>
      match String.get i s with
      | Some a => Returned (YStr (String a EmptyString))
      | None => Raised (IndexError "string index out of range")
      end
  | YMap _ => Raised (Error (pretty i))
  | YInt _ => Raised (Error "'int' object is not subscriptable")
  | YNull => Raised (Error "'NoneType' object is not subscriptable")
  end.

Global Instance Outcome_ret : MRet Outcome := λ A, Returned.
Global Instance Outcome_bind : MBind Outcome := λ A B f m,
  match m with
  | Returned a => f a
  | Raised e => Raised e
  end.

(** [open(path, "r")] on a file that is not there *)
Definition FileNotFoundError (path : string) : Exception :=
  Error ("[Errno 2] No such file or directory: '" +:+ path +:+ "'").

(** [value.attr] on a value whose type has no such attribute *)
Definition AttributeError (type_name attr : string) : Exception :=
  Error ("'" +:+ type_name +:+ "' object has no attribute '" +:+ attr +:+ "'").

(** *** [src/utils/tools.py]: [getlt_mem] *)

(** The config dict that [getlt_mem] (and [initialize_bot]) builds for
    [Memory.from_config]; the entries are looked up in this order. *)
Record MemConfig := {
  vector_provider : Yaml;
  vector_host : Yaml;
  vector_port : Yaml;
  graph_provider : Yaml;
  graph_url : Yaml;
  graph_username : Yaml;
  graph_password : Yaml
}.

Definition mem_config (config : Yaml) : Outcome MemConfig :=
  vector_provider ← getitem config "vector_store" ≫= λ c, getitem c "provider";
  vector_host ←
    getitem config "vector_store" ≫= λ c, getitem c "config" ≫= λ c, getitem c "host";
  vector_port ←
    getitem config "vector_store" ≫= λ c, getitem c "config" ≫= λ c,
    getitem c "ports" ≫= λ c, getindex c 0;
  graph_provider ← getitem config "graph_store" ≫= λ c, getitem c "provider";
  graph_url ←
    getitem config "graph_store" ≫= λ c, getitem c "config" ≫= λ c, getitem c "url";
  graph_username ←
    getitem config "graph_store" ≫= λ c, getitem c "config" ≫= λ c,
    getitem c "username";
  graph_password ←
    getitem config "graph_store" ≫= λ c, getitem c "config" ≫= λ c,
    getitem c "password";
  mret {| vector_provider := vector_provider; vector_host := vector_host;
          vector_port := vector_port; graph_provider := graph_provider;
          graph_url := graph_url; graph_username := graph_username;
          graph_password := graph_password |}.

Section Tools_getlt_mem.
Context {Client : Type}.
(** [Memory.from_config] *)
Context (from_config : MemConfig → Outcome Client).

(** [getlt_mem()]: [config_file] is what [config.yaml] next to the
    package holds, [None] when the file is not there; [lt_mem] is the
    global of the module, returned as the call leaves it. *)
Definition getlt_mem (config_file : option Yaml) (lt_mem : option Client)
  : Outcome Client * option Client :=
  match config_file with
  | None => (Raised (FileNotFoundError "config.yaml"), lt_mem)
  | Some config =>
      match mem_config config with
      | Raised e => (Raised e, lt_mem)
      | Returned config =>
          match lt_mem with
          | None =>
              match from_config config with
              | Returned client => (Returned client, Some client)
              | Raised e => (Raised e, None)
              end
          | Some client => (Returned client, Some client)
          end
      end
  end.
End Tools_getlt_mem.

(* ===================================================================== *)
(** ** Messages *)
(* ===================================================================== *)

(** A tool call is the dict [{"name": .., "args": {..}, "id": ..}] that an
    assistant message carries. *)
Record ToolCall := {
  tc_name : string;
  tc_args : gmap string string;
  tc_id : string
}.

Inductive Message :=
  | SystemMessage (content : string)
  | HumanMessage (content : string)
  | AIMessage (content : string) (tool_calls : list ToolCall)
  | ToolMessage (tool_call_id : string) (content : string).

Definition content (m : Message) : string :=
  match m with
  | SystemMessage c | HumanMessage c | AIMessage c _ | ToolMessage _ c => c
  end.

(** [getattr(message, "tool_calls", [])] *)
Definition getattr_tool_calls (m : Message) : list ToolCall :=
  match m with
  | AIMessage _ tcs => tcs
  | _ => []
  end.

(** [message.tool_call_id] of a tool-result message *)
Definition tool_call_id (m : Message) : option string :=
  match m with
  | ToolMessage i _ => Some i
  | _ => None
  end.

(** The strings that [trim_messages] compares: the [type] of a message,
    and the names given for [start_on] and [end_on].  An assistant message
    has the type ["ai"]; ["assistant"] is a name the session passes, and
    the type of no message. *)
Inductive MessageType := system | human | ai | assistant | tool.

Global Instance MessageType_eq_dec : EqDecision MessageType.
Proof. solve_decision. Defined.

Definition message_type (m : Message) : MessageType :=
  match m with
  | SystemMessage _ => system
  | HumanMessage _ => human
  | AIMessage _ _ => ai
  | ToolMessage _ _ => tool
  end.

(** [GraphState]: the dataclass with the one channel [messages]. *)
Record GraphState := { messages : list Message }.

(** What [run] hands back and what the chat loop indexes into. *)
#[warnings="-register-all"]
Inductive PyValue :=
  | VStr (s : string)
  | VMessages (ms : list Message)
  | VDict (d : gmap string PyValue).

(* ===================================================================== *)
(** ** The collaborators *)
(* ===================================================================== *)

(** Everything the session reaches outside the repository.  The language
    model and the event loop are not deterministic: the model's answer is
    indexed by the number of calls made so far, the event loop's choice of the
    next tool coroutine by a tick counter, and [uuid4] by the number of
    identifiers drawn.  [Store] is the state of what the tools work on: the
    long-term memory service, and with it the config file and the module
    global of [utils/tools.py]. *)
Record Collaborators (Store : Type) := {
  (** [init_chat_model(llm, temperature=temperature)] *)
  init_chat_model : string → string → Outcome unit;
  (** [self._llm.bind_tools(tools)], on the names of the tools *)
  bind_tools : list string → Outcome unit;
  (** [self._llm_with_tools.invoke(messages)]: content and tool calls of the
      assistant message that comes back *)
  llm_invoke : nat → list Message → string * list ToolCall;
  (** [self._llm.get_num_tokens] and [get_buffer_string] *)
  get_num_tokens : string → Z;
  get_buffer_string : list Message → string;
  (** [count_tokens_approximately] on one message; on a list it is the sum *)
  approx_tokens : Message → nat;
  (** [uuid.uuid4()] rendered by [str] *)
  uuid4 : nat → string;
  (** which of the pending tool coroutines the event loop runs next *)
  next_task : nat → nat;
  (** the clients of the memory service, the objects of class [Memory] *)
  Memory : Type;
  (** what the file at [config_path] of [utils/tools.py] holds, [None] when
      it is not there *)
  config_file : Store → option Yaml;
  (** the module global [lt_mem] of [utils/tools.py] *)
  tools_lt_mem : Store → option Memory;
  (** [lt_mem = Memory.from_config(config)]: whether the client can be
      made, and the store once it has been made and assigned *)
  from_config : Store → MemConfig → Outcome Memory;
  set_tools_lt_mem : Memory → Store → Store;
  (** [client.add(messages=[{"role": r, "content": c}], user_id=u)] *)
  mem0_add : Memory → Store → string → string → string → Outcome unit * Store;
  (** [str(client.search(query, user_id=u))] *)
  mem0_search : Memory → Store → string → string → Outcome string * Store;
  (** [self._lt_mem.delete_all(user_id=u)], on the client of the session *)
  mem0_delete_all : Store → string → Outcome unit * Store;
  (** the exception of a tool's argument validation *)
  validation_error : string → gmap string string → Exception
}.
Arguments init_chat_model {Store} _ _ _.
Arguments bind_tools {Store} _ _.
Arguments llm_invoke {Store} _ _ _.
Arguments get_num_tokens {Store} _ _.
Arguments get_buffer_string {Store} _ _.
Arguments approx_tokens {Store} _ _.
Arguments uuid4 {Store} _ _.
Arguments next_task {Store} _ _.
Arguments Memory {Store} _.
Arguments config_file {Store} _ _.
Arguments tools_lt_mem {Store} _ _.
Arguments from_config {Store} _ _ _.
Arguments set_tools_lt_mem {Store} _ _ _.
Arguments mem0_add {Store} _ _ _ _ _ _.
Arguments mem0_search {Store} _ _ _ _ _.
Arguments mem0_delete_all {Store} _ _ _.
Arguments validation_error {Store} _ _ _.

(** The world outside the session object. *)
Record Env (Store : Type) := {
  llm_log : list (list Message);   (** the sequences the model was called with *)
  lt_mem : Store;                  (** the long-term memory service *)
  uuids : nat;                     (** identifiers drawn so far *)
  ticks : nat                      (** scheduling choices made so far *)
}.
Arguments llm_log {Store} _.
Arguments lt_mem {Store} _.
Arguments uuids {Store} _.
Arguments ticks {Store} _.

(* ===================================================================== *)
(** ** [src/utils/tools.py] *)
(* ===================================================================== *)

(** A [@tool]: its name and what [ainvoke(args)] does, argument validation
    included. *)
Record Tool (Store : Type) := {
  tool_name : string;
  ainvoke : gmap string string → Store → Outcome string * Store
}.
Arguments tool_name {Store} _.
Arguments ainvoke {Store} _ _ _.

Section Tools.
Context {Store : Type} (C : Collaborators Store).

(** [getlt_mem()] as the tools call it: on the config file, the module
    global and the memory backend of the store.  The global is assigned
    when it was [None] and the client has been made. *)
Definition getlt_mem_in (s : Store) : Outcome (Memory C) * Store :=
  let '(client, lt_mem') :=
    getlt_mem (from_config C s) (config_file C s) (tools_lt_mem C s) in
  (client,
   match tools_lt_mem C s, lt_mem' with
   | None, Some client => set_tools_lt_mem C client s
   | _, _ => s
   end).

(** The arguments are validated before the body runs. *)
Definition add_update_memory : Tool Store := {|
  tool_name := "add_update_memory";
  ainvoke args s :=
    match args !! "memory", args !! "user_id" with
    | Some memory, Some user_id =>
        match getlt_mem_in s with
        | (Returned client, s1) =>
            match mem0_add C client s1 "assistant" ("Memory: " +:+ memory)
                    user_id with
            | (Returned _, s') =>
                (Returned "Memory has been added successfully.", s')
            | (Raised e, s') => (Raised e, s')
            end
        | (Raised e, s1) => (Raised e, s1)
        end
    | _, _ => (Raised (validation_error C "add_update_memory" args), s)
    end
|}.

Definition fetch_memory : Tool Store := {|
  tool_name := "fetch_memory";
  ainvoke args s :=
    match args !! "query", args !! "user_id" with
    | Some query, Some user_id =>
        match getlt_mem_in s with
        | (Returned client, s1) => mem0_search C client s1 query user_id
        | (Raised e, s1) => (Raised e, s1)
        end
    | _, _ => (Raised (validation_error C "fetch_memory" args), s)
    end
|}.
End Tools.

(* ===================================================================== *)
(** ** The session object *)
(* ===================================================================== *)

(** A value of the invocation config [self._config]. *)
Inductive ConfigValue :=
  | CInt (n : Z)
  | CDict (d : gmap string string).

(** [config["llm"]] when it is a mapping: the keys the session reads, the
    temperature as the file writes it.  Of these only [max_context] is read
    after the model has been built. *)
Record LlmConfig := {
  model : option string;
  temperature : option string;
  max_context : option Z
}.

(** [config["llm"]] as the file gives it: a mapping, or a value of another
    type, [None] among them, which has no [get]. *)
Inductive LlmValue :=
  | LlmMapping (llm_config : LlmConfig)
  | LlmOther (type_name : string).

(** The dict loaded from [config.yaml]. *)
Record Config := {
  system_prompt : option string;
  llm : option LlmValue;
  recursion_limit : option Z
}.

(** The attributes of the session.  [self._lt_mem] is the client of the
    memory service, whose state the world holds; [self._llm] and
    [self._llm_with_tools] are the collaborators [get_num_tokens] and
    [llm_invoke]; [self._graph] is [_setup_graph] below. *)
Record AgenticChatBot (Store : Type) := {
  _user_id : string;
  _system_prompt : string;
  _llm_config : LlmConfig;
  _thread_id : string;
  _config : gmap string ConfigValue;
  (** [MemorySaver]: the [messages] channel of the latest checkpoint of each
      thread *)
  _memory : gmap string (list Message);
  _tools : list (Tool Store);
  _tools_map : gmap string (Tool Store)
}.
Arguments _user_id {Store} _.
Arguments _system_prompt {Store} _.
Arguments _llm_config {Store} _.
Arguments _thread_id {Store} _.
Arguments _config {Store} _.
Arguments _memory {Store} _.
Arguments _tools {Store} _.
Arguments _tools_map {Store} _.

(* ===================================================================== *)
(** ** [langchain_core.messages.trim_messages] *)
(* ===================================================================== *)

(** The library function behind [AgenticChatBot._trim_messages], for the
    keyword arguments the session passes: [strategy="last"] and
    [allow_partial=False].  It is not part of the repository; the model
    follows the library's [_last_max_tokens] and [_first_max_tokens]. *)
Module LangChain.
Section Trim.
(** [token_counter], on a list of messages *)
Variable token_counter : list Message → Z.

Definition _is_message_type (m : Message) (types : list MessageType) : bool :=
  bool_decide (message_type m ∈ types).

(** On the reversed list: drop from the front until a message of one of
    [types] stands there. *)
Fixpoint drop_until_type (types : list MessageType) (rev_messages : list Message)
  : list Message :=
  match rev_messages with
  | [] => []
  | m :: rest =>
      if _is_message_type m types then m :: rest
      else drop_until_type types rest
  end.

(** [while messages and not _is_message_type(messages[-1], types):
       messages.pop()] *)
Definition pop_until_type (types : list MessageType) (messages : list Message)
  : list Message :=
  reverse (drop_until_type types (reverse messages)).

(** [int.bit_length] *)
Definition bit_length (n : nat) : nat :=
  match n with
  | O => O
  | S _ => S (Nat.log2 n)
  end.

(** The binary search of [_first_max_tokens] for the number of leading
    messages within [max_tokens]. *)
Fixpoint bisect (iterations : nat) (messages : list Message) (max_tokens : Z)
    (left right : nat) : nat :=
  match iterations with
  | O => left
  | S iterations' =>
      if decide (right ≤ left)%nat then left
      else
        let mid := ((left + right + 1) `div` 2)%nat in
        if (token_counter (take mid messages) <=? max_tokens)%Z
        then bisect iterations' messages max_tokens mid right
        else bisect iterations' messages max_tokens left (mid - 1)
  end.

(** [for _ in range(idx)]: step [idx] back while [messages[idx - 1]] is not
    of one of [end_on].  ([idx] never exceeds [len(messages)].) *)
Fixpoint back_off (end_on : list MessageType) (messages : list Message)
    (idx : nat) : nat :=
  match idx with
  | O => O
  | S idx' =>
      match messages !! idx' with
      | Some m =>
          if _is_message_type m end_on then idx
          else back_off end_on messages idx'
      | None => idx
      end
  end.

Definition _first_max_tokens (messages : list Message) (max_tokens : Z)
    (end_on : list MessageType) : list Message :=
  match messages with
  | [] => []
  | _ =>
      if (token_counter messages <=? max_tokens)%Z then
        match end_on with
        | [] => messages
        | _ => pop_until_type end_on messages
        end
      else
        let idx :=
          bisect (bit_length (length messages)) messages max_tokens
                 0 (length messages) in
        let idx :=
          match end_on with
          | [] => idx
          | _ => back_off end_on messages idx
          end in
        take idx messages
  end.

Definition _last_max_tokens (messages : list Message) (max_tokens : Z)
    (include_system : bool) (start_on end_on : list MessageType)
  : list Message :=
  match messages with
  | [] => []
  | _ =>
      let messages :=
        match end_on with
        | [] => messages
        | _ => pop_until_type end_on messages
        end in
      let '(system_message, messages) :=
        match messages with
        | SystemMessage c :: rest =>
            if include_system then (Some (SystemMessage c), rest)
            else (None, messages)
        | _ => (None, messages)
        end in
      let reversed_messages := reverse messages in
      let remaining_tokens :=
        match system_message with
        | Some sm => (0 `max` (max_tokens - token_counter [sm]))%Z
        | None => max_tokens
        end in
      let reversed_result :=
        _first_max_tokens reversed_messages remaining_tokens start_on in
      let result := reverse reversed_result in
      match system_message with
      | Some sm => sm :: result
      | None => result
      end
  end.

(** [trim_messages(messages, token_counter=.., max_tokens=..,
      strategy="last", start_on=.., end_on=.., include_system=..,
      allow_partial=False)] *)
Definition trim_messages (messages : list Message) (max_tokens : Z)
    (start_on end_on : list MessageType) (include_system : bool)
  : list Message :=
  _last_max_tokens messages max_tokens include_system start_on end_on.
End Trim.
End LangChain.

(* ===================================================================== *)
(** ** [langgraph]: the compiled graph and its run *)
(* ===================================================================== *)

(** The part of [langgraph] the session uses: a state graph over the one
    channel [messages] with the reducer [operator.add], compiled with a
    [MemorySaver], and run by [ainvoke] under the recursion limit of the
    invocation config.  It is not part of the repository. *)
Module LangGraph.
Definition DEFAULT_RECURSION_LIMIT : Z := 25.

(** [config["recursion_limit"]], with the library's default *)
Definition recursion_limit_of (config : gmap string ConfigValue) : Z :=
  match config !! "recursion_limit" with
  | Some (CInt n) => n
  | _ => DEFAULT_RECURSION_LIMIT
  end.

(** [config["configurable"]["thread_id"]] *)
Definition thread_id_of (config : gmap string ConfigValue) : option string :=
  match config !! "configurable" with
  | Some (CDict d) => d !! "thread_id"
  | _ => None
  end.

(** [MemorySaver.get(config)] *)
Definition get (checkpointer : gmap string (list Message))
    (config : gmap string ConfigValue) : option (list Message) :=
  thread_id_of config ≫= λ thread_id, checkpointer !! thread_id.

Section Pregel.
Context {W Node : Type}.

(** A node gets the state built from the channel and returns its update
    [{"messages": [...]}]; next to it, the channel's messages as the node
    left them (a node can mutate the message objects the channel holds)
    and the world. *)
Record CompiledGraph := {
  node_fn : Node → GraphState → W → Outcome (list Message) * list Message * W;
  entry_point : Node;
  (** the edges out of a node; [None] is [END] *)
  next_node : Node → GraphState → Outcome (option Node)
}.

Inductive Status :=
  | done
  | out_of_steps
  | failed (e : Exception).

(** The supersteps that run a node.  The step budget is checked before
    the next task is looked for, so that a run which has used up its
    steps is out of steps even when no task is left; every finished
    superstep is checkpointed. *)
Fixpoint loop (g : CompiledGraph) (steps : nat) (task : option Node)
    (channel : list Message) (w : W) : Status * list Message * W :=
  match steps with
  | O => (out_of_steps, channel, w)
  | S steps' =>
      match task with
      | None => (done, channel, w)
      | Some n =>
          match node_fn g n {| messages := channel |} w with
          | (Returned update, channel_after, w') =>
              let channel' := channel_after ++ update in
              match next_node g n {| messages := channel' |} with
              | Returned task' => loop g steps' task' channel' w'
              | Raised e => (failed e, channel', w')
              end
          | (Raised e, channel_after, w') => (failed e, channel_after, w')
          end
      end
  end.

(** [graph.ainvoke(input, config=config)]: keys of [input] that are not
    channels are dropped; at most [recursion_limit] nodes run, and a run
    returns when it has come to its end with a step to spare. *)
Definition ainvoke (g : CompiledGraph)
    (checkpointer : gmap string (list Message))
    (input : gmap string PyValue) (config : gmap string ConfigValue) (w : W)
  : Outcome PyValue * gmap string (list Message) * W :=
  match thread_id_of config with
  | None => (Raised (ValueError "thread_id"), checkpointer, w)
  | Some thread_id =>
      let limit := recursion_limit_of config in
      if (limit <? 1)%Z then
        (Raised (ValueError "recursion_limit must be at least 1"),
         checkpointer, w)
      else
        let update :=
          match input !! "messages" with
          | Some (VMessages ms) => ms
          | _ => []
          end in
        let channel := default [] (checkpointer !! thread_id) ++ update in
        let '(status, channel', w') :=
          loop g (Z.to_nat limit) (Some (entry_point g)) channel w in
        (match status with
         | done => Returned (VDict {[ "messages" := VMessages channel' ]})
         | out_of_steps => Raised (GraphRecursionError limit)
         | failed e => Raised e
         end,
         <[thread_id := channel']> checkpointer, w')
  end.
End Pregel.
Arguments CompiledGraph : clear implicits.
End LangGraph.

(* ===================================================================== *)
(** ** [src/agent/graph.py]: [AgenticChatBot] *)
(* ===================================================================== *)

(** The two nodes of the graph. *)
Inductive Node := agent | execute_tools.

Section AgenticChatBot.
Context {Store : Type} (C : Collaborators Store).

Abbreviation Bot := (AgenticChatBot Store).
Abbreviation World := (Env Store).

(** *** Changes to the world and to [self] *)

Definition log_llm_call (input : list Message) (w : World) : World :=
  {| llm_log := llm_log w ++ [input]; lt_mem := lt_mem w;
     uuids := uuids w; ticks := ticks w |}.

Definition set_lt_mem (s : Store) (w : World) : World :=
  {| llm_log := llm_log w; lt_mem := s; uuids := uuids w; ticks := ticks w |}.

Definition draw_uuid (w : World) : string * World :=
  (uuid4 C (uuids w),
   {| llm_log := llm_log w; lt_mem := lt_mem w;
      uuids := S (uuids w); ticks := ticks w |}).

Definition draw_task (w : World) : nat * World :=
  (next_task C (ticks w),
   {| llm_log := llm_log w; lt_mem := lt_mem w;
      uuids := uuids w; ticks := S (ticks w) |}).

Definition set_memory (memory : gmap string (list Message)) (self : Bot) : Bot :=
  {| _user_id := _user_id self; _system_prompt := _system_prompt self;
     _llm_config := _llm_config self; _thread_id := _thread_id self;
     _config := _config self; _memory := memory;
     _tools := _tools self; _tools_map := _tools_map self |}.

Definition set_thread (thread_id : string) (config : gmap string ConfigValue)
    (self : Bot) : Bot :=
  {| _user_id := _user_id self; _system_prompt := _system_prompt self;
     _llm_config := _llm_config self; _thread_id := thread_id;
     _config := config; _memory := _memory self;
     _tools := _tools self; _tools_map := _tools_map self |}.

(** *** Construction *)

(** [self._tools] and [self._tools_map], the dict
    [{tool.name: tool for tool in self._tools}]; binding the tools to the
    model, when the model takes them, gives the collaborator
    [llm_invoke]. *)
Definition _setup_tools : Outcome (list (Tool Store) * gmap string (Tool Store)) :=
  let tools := [add_update_memory C; fetch_memory C] in
  let tools_map := foldl (λ m t, <[tool_name t := t]> m) ∅ tools in
  _ ← bind_tools C (tool_name <$> tools);
  mret (tools, tools_map).

(** [AgenticChatBot(user_id, lt_mem, config)]: a missing "system_prompt"
    or "llm" is a [KeyError], an "llm" that is no mapping an
    [AttributeError], and what [init_chat_model] or [bind_tools] raises
    goes through; the thread identifier is drawn once the model is built;
    the invocation config gets the recursion limit of the config, 25 when
    it has none. *)
Definition __init__ (user_id : string) (config : Config) (w : World)
  : Outcome Bot * World :=
  match system_prompt config with
  | None => (Raised (KeyError "system_prompt"), w)
  | Some prompt =>
      match llm config with
      | None => (Raised (KeyError "llm"), w)
      | Some (LlmOther type_name) => (Raised (AttributeError type_name "get"), w)
      | Some (LlmMapping llm_config) =>
          match init_chat_model C (default "openai:gpt-4o" (model llm_config))
                  (default "0.7" (temperature llm_config)) with
          | Raised e => (Raised e, w)
          | Returned _ =>
              let '(thread_id, w') := draw_uuid w in
              match _setup_tools with
              | Raised e => (Raised e, w')
              | Returned (tools, tools_map) =>
                  (Returned
                     {| _user_id := user_id;
                        _system_prompt := prompt;
                        _llm_config := llm_config;
                        _thread_id := thread_id;
                        _config :=
                          <["recursion_limit" :=
                              CInt (default 25%Z (recursion_limit config))]>
                            {[ "configurable" :=
                                 CDict {[ "thread_id" := thread_id ]} ]};
                        _memory := ∅;
                        _tools := tools;
                        _tools_map := tools_map |},
                   w')
              end
          end
      end
  end.

(** *** The [agent] node *)

Definition _count_tokens (messages : list Message) : Z :=
  get_num_tokens C (get_buffer_string C messages).

(** [count_tokens_approximately] on a list: the per-message counts add up *)
Definition count_tokens_approximately (messages : list Message) : Z :=
  Z.of_nat (sum_list_with (approx_tokens C) messages).

Definition _trim_messages (self : Bot) (state : GraphState) : GraphState :=
  {| messages :=
       LangChain.trim_messages count_tokens_approximately
         (messages state)
         (default 28000%Z (max_context (_llm_config self)))
         [human] [human; assistant; tool] true |}.

(** Rebinding [state.messages] changes the node's own [GraphState] only:
    the channel keeps its list, and the node's update is the response. *)
Definition _executor (self : Bot) (state : GraphState) (w : World)
  : Outcome (list Message) * list Message * World :=
  let state' :=
    match max_context (_llm_config self) with
    | Some max_context =>
        if negb (max_context =? 0)%Z
           && (max_context <? _count_tokens (messages state))%Z
        then _trim_messages self state
        else state
    | None => state
    end in
  let '(text, tool_calls) := llm_invoke C (length (llm_log w)) (messages state') in
  (Returned [AIMessage text tool_calls], messages state,
   log_llm_call (messages state') w).

(** *** The [execute_tools] node *)

(** [args.update({"user_id": ..})] changes the dict inside the tool call:
    the tool call is returned as the coroutine left it.  (A tool call of an
    assistant message always has its "args", so that the default of
    [tool_call.get("args", {})] is never taken.) *)
Definition invoke_tool (self : Bot) (tool_call : ToolCall) (s : Store)
  : Outcome Message * ToolCall * Store :=
  match _tools_map self !! tc_name tool_call with
  | None =>
      (Returned (ToolMessage (tc_id tool_call) "Tool doesn't exist!"),
       tool_call, s)
  | Some tool_fn =>
      let args := <["user_id" := _user_id self]> (tc_args tool_call) in
      let tool_call' :=
        {| tc_name := tc_name tool_call; tc_args := args;
           tc_id := tc_id tool_call |} in
      let '(res, s') := ainvoke tool_fn args s in
      (try_except
         match res with
         | Returned res => Returned (ToolMessage (tc_id tool_call) res)
         | Raised e => Raised e
         end
         (λ e, Returned (ToolMessage (tc_id tool_call) ("Error: " +:+ py_str e))),
       tool_call', s')
  end.

(** [asyncio.gather]: the event loop picks one of the pending coroutines,
    [pending] holding their positions, until none is left; each result goes
    to the position of its call. *)
Fixpoint gather_loop (self : Bot) (n : nat) (pending : list nat)
    (results : list (option Message)) (tool_calls : list ToolCall) (w : World)
  : Outcome (list (option Message)) * list ToolCall * World :=
  match n with
  | O => (Returned results, tool_calls, w)
  | S n' =>
      let '(choice, w1) := draw_task w in
      let k := (choice `mod` length pending)%nat in
      match pending !! k with
      | None => (Returned results, tool_calls, w)
      | Some i =>
          match tool_calls !! i with
          | None => (Returned results, tool_calls, w)
          | Some tool_call =>
              match invoke_tool self tool_call (lt_mem w1) with
              | (Returned message, tool_call', s') =>
                  gather_loop self n' (delete k pending)
                    (<[i := Some message]> results)
                    (<[i := tool_call']> tool_calls)
                    (set_lt_mem s' w1)
              | (Raised e, tool_call', s') =>
                  (Raised e, <[i := tool_call']> tool_calls, set_lt_mem s' w1)
              end
          end
      end
  end.

Definition gather (self : Bot) (tool_calls : list ToolCall) (w : World)
  : Outcome (list Message) * list ToolCall * World :=
  let n := length tool_calls in
  let '(out, tool_calls', w') :=
    gather_loop self n (seq 0 n) (replicate n None) tool_calls w in
  (match out with
   | Returned results => Returned (omap id results)
   | Raised e => Raised e
   end, tool_calls', w').

(** [message.tool_calls] after the coroutines have run *)
Definition set_tool_calls (m : Message) (tool_calls : list ToolCall) : Message :=
  match m with
  | AIMessage text _ => AIMessage text tool_calls
  | _ => m
  end.

Definition _execute_tools (self : Bot) (state : GraphState) (w : World)
  : Outcome (list Message) * list Message * World :=
  match last (messages state) with
  | None => (Raised (IndexError "list index out of range"), messages state, w)
  | Some message =>
      let tool_calls := getattr_tool_calls message in
      let '(tool_messages, tool_calls', w') := gather self tool_calls w in
      (tool_messages,
       removelast (messages state) ++ [set_tool_calls message tool_calls'],
       w')
  end.

Definition _tool_exists (self : Bot) (state : GraphState) : Outcome bool :=
  match last (messages state) with
  | None => Raised (IndexError "list index out of range")
  | Some (AIMessage _ (_ :: _)) => Returned true
  | Some _ => Returned false
  end.

(** *** The graph *)

Definition _setup_graph (self : Bot) : LangGraph.CompiledGraph World Node := {|
  LangGraph.node_fn n :=
    match n with
    | agent => _executor self
    | execute_tools => _execute_tools self
    end;
  LangGraph.entry_point := agent;
  LangGraph.next_node n state :=
    match n with
    | agent =>
        match _tool_exists self state with
        | Returned true => Returned (Some execute_tools)
        | Returned false => Returned None
        | Raised e => Raised e
        end
    | execute_tools => Returned (Some agent)
    end
|}.

(** *** Public API *)

Definition clear_memory (self : Bot) (w : World) : Outcome unit * World :=
  let '(out, s') := mem0_delete_all C (lt_mem w) (_user_id self) in
  (out, set_lt_mem s' w).

Definition start_new_conversation (self : Bot) (w : World) : Bot * World :=
  let '(thread_id, w') := draw_uuid w in
  (set_thread thread_id
     {[ "configurable" := CDict {[ "thread_id" := thread_id ]} ]} self,
   w').

Definition run (self : Bot) (query : string) (w : World)
  : Outcome PyValue * Bot * World :=
  let thread_state := LangGraph.get (_memory self) (_config self) in
  let input_data : gmap string PyValue :=
    match thread_state with
    | None =>
        <["variables" := VDict ∅]>
          (<["collected_insights" := VMessages []]>
             {[ "messages" :=
                  VMessages [SystemMessage (_system_prompt self);
                             HumanMessage query] ]})
    | Some _ => {[ "messages" := VMessages [HumanMessage query] ]}
    end in
  let '(response, memory', w') :=
    LangGraph.ainvoke (_setup_graph self) (_memory self) input_data
      (_config self) w in
  (response, set_memory memory' self, w').

(** *** [src/app.py]: the chatbot interaction of [chat_loop] *)

(** [response['messages'][-1].content] *)
Definition bot_message (response : PyValue) : Outcome string :=
  match response with
  | VDict d =>
      match d !! "messages" with
      | Some (VMessages ms) =>
          match last ms with
          | Some m => Returned (content m)
          | None => Raised (IndexError "list index out of range")
          end
      | Some _ => Raised (Error "indices must be integers")
      | None => Raised (KeyError "messages")
      end
  | _ => Raised (Error "indices must be integers")
  end.

(** What the loop shows before it reads the next input. *)
Inductive Panel :=
  | SessionStarted
  | NewConversation
  | MemoryCleared
  | AvailableCommands
  | Turn (user_input bot_message : string)
  | ErrorPanel (text : string).

(** The keys of [COMMANDS] *)
Definition COMMANDS : list string := ["/exit"; "/new"; "/clear"; "/commands"].

(** [str.lower], on ASCII *)
Definition lower_ascii (a : ascii) : ascii :=
  let n := nat_of_ascii a in
  if (65 <=? n)%nat && (n <=? 90)%nat then ascii_of_nat (n + 32) else a.

Fixpoint lower (s : string) : string :=
  match s with
  | EmptyString => EmptyString
  | String a s' => String (lower_ascii a) (lower s')
  end.

(** The chatbot interaction: [response = await bot.run(user_input)], then
    [bot_message = response['messages'][-1].content]; an exception of
    either ends up in the error panel. *)
Definition chat_interaction (bot : Bot) (user_input : string) (w : World)
  : Panel * Bot * World :=
  let '(response, bot', w') := run bot user_input w in
  (match response with
   | Returned response =>
       match bot_message response with
       | Returned bot_message => Turn user_input bot_message
       | Raised e => ErrorPanel ("An error occurred: " +:+ py_str e)
       end
   | Raised e => ErrorPanel ("An error occurred: " +:+ py_str e)
   end, bot', w').

(** [chat_loop], over the inputs the user types until the session is
    interrupted. *)
Fixpoint chat_loop (inputs : list string) (bot : Bot) (w : World)
    (last_response_panel : Panel) : Panel * Bot * World :=
  match inputs with
  | [] => (last_response_panel, bot, w)
  | user_input :: inputs' =>
      let command := lower user_input in
      if bool_decide (command ∈ COMMANDS) then
        if bool_decide (command = "/exit") then (last_response_panel, bot, w)
        else if bool_decide (command = "/new") then
          let '(bot', w') := start_new_conversation bot w in
          chat_loop inputs' bot' w' NewConversation
        else if bool_decide (command = "/clear") then
          match clear_memory bot w with
          | (Returned _, w') => chat_loop inputs' bot w' MemoryCleared
          | (Raised e, w') =>
              chat_loop inputs' bot w'
                (ErrorPanel ("An error occurred: " +:+ py_str e))
          end
        else chat_loop inputs' bot w AvailableCommands
      else
        let '(panel, bot', w') := chat_interaction bot user_input w in
        chat_loop inputs' bot' w' panel
  end.
End AgenticChatBot.

(* ===================================================================== *)
(** ** The vocabulary of the properties *)
(* ===================================================================== *)

Section Vocabulary.
Context {Store : Type} (C : Collaborators Store).

Abbreviation Bot := (AgenticChatBot Store).
Abbreviation World := (Env Store).

(** *** Tool resolution *)

(** The tool call as its coroutine leaves it: with the user identifier in
    its arguments when the tool is registered, as it was otherwise. *)
Definition injected (self : Bot) (tool_call : ToolCall) : ToolCall :=
  match _tools_map self !! tc_name tool_call with
  | None => tool_call
  | Some _ =>
      {| tc_name := tc_name tool_call;
         tc_args := <["user_id" := _user_id self]> (tc_args tool_call);
         tc_id := tc_id tool_call |}
  end.

(** The content of the tool-result message that answers an invocation. *)
Definition result_content (res : Outcome string) : string :=
  match res with
  | Returned res => res
  | Raised e => "Error: " +:+ py_str e
  end.

(** What [gather_loop] keeps true: the calls still pending are untouched,
    every other call has its message in place. *)
Record gather_inv (self : Bot) (orig : list ToolCall) (pending : list nat)
    (results : list (option Message)) (calls : list ToolCall) : Prop := {
  inv_results : length results = length orig;
  inv_calls : length calls = length orig;
  inv_nodup : NoDup pending;
  inv_pending : ∀ i, i ∈ pending → (i < length orig)%nat ∧ calls !! i = orig !! i;
  inv_done : ∀ i tc, orig !! i = Some tc → i ∉ pending →
    calls !! i = Some (injected self tc) ∧
    ∃ s m, (invoke_tool self tc s).1.1 = Returned m ∧
           results !! i = Some (Some m)
}.

(** *** Trimming *)

(** The sequence the [agent] node hands to the model. *)
Definition llm_input (self : Bot) (channel : list Message) : list Message :=
  match max_context (_llm_config self) with
  | Some max_context =>
      if negb (max_context =? 0)%Z
         && (max_context <? _count_tokens C channel)%Z
      then messages (_trim_messages C self {| messages := channel |})
      else channel
  | None => channel
  end.

(** A token counter that adds up a count per message, as
    [count_tokens_approximately] does. *)
Definition token_sum (tok : Message → nat) (l : list Message) : Z :=
  Z.of_nat (sum_list_with tok l).

(** The first [k] messages are within the budget. *)
Definition fits (tok : Message → nat) (messages : list Message)
    (max_tokens : Z) (k : nat) : Prop :=
  (token_sum tok (take k messages) ≤ max_tokens)%Z.

(** The message at position [k - 1] is a human message. *)
Definition human_at (messages : list Message) (k : nat) : Prop :=
  ∃ c, messages !! (k - 1)%nat = Some (HumanMessage c).

(** A leading system message and what follows it. *)
Definition split_system (messages : list Message) : list Message * list Message :=
  match messages with
  | SystemMessage c :: rest => ([SystemMessage c], rest)
  | _ => ([], messages)
  end.

(** The tokens left for the window once the system message is kept. *)
Definition window_budget (counter : list Message → Z) (max_tokens : Z)
    (sys : list Message) : Z :=
  match sys with
  | [] => max_tokens
  | _ => (0 `max` (max_tokens - counter sys))%Z
  end.

Definition starts_on_human (window : list Message) : Prop :=
  ∃ c tl, window = HumanMessage c :: tl.

Definition ends_on_human_assistant_tool (window : list Message) : Prop :=
  ∃ m, last window = Some m ∧ message_type m ∈ [human; assistant; tool].

(** A window the trimming may keep: the most recent messages, from a human
    message on, within the budget. *)
Record valid_window (counter : list Message → Z) (budget : Z)
    (rest window : list Message) : Prop := {
  window_suffix : window `suffix_of` rest;
  window_start : starts_on_human window;
  window_fits : (counter window ≤ budget)%Z
}.

(** The same, decided: the suffixes of [rest], most recent last, and
    whether one of them is a valid window. *)
Fixpoint suffixes (rest : list Message) : list (list Message) :=
  rest :: match rest with
          | [] => []
          | _ :: tl => suffixes tl
          end.

Definition is_window (counter : list Message → Z) (budget : Z)
    (window : list Message) : bool :=
  match window with
  | HumanMessage _ :: _ => bool_decide (counter window ≤ budget)%Z
  | _ => false
  end.

Definition has_window (counter : list Message → Z) (budget : Z)
    (rest : list Message) : bool :=
  existsb (is_window counter budget) (suffixes rest).

(** *** The turn *)

(** Every model call logged from position [n0] on asked for tools. *)
Definition asked (n0 : nat) (w : World) : Prop :=
  ∀ k input, (n0 ≤ k)%nat → llm_log w !! k = Some input →
    (llm_invoke C k input).2 ≠ [].

(** The same of every call but the latest. *)
Definition asked_before_last (n0 : nat) (w : World) : Prop :=
  ∀ k input, (n0 ≤ k)%nat → (S k < length (llm_log w))%nat →
    llm_log w !! k = Some input → (llm_invoke C k input).2 ≠ [].

(** The channel ends on the model's latest answer, which asks for no tool. *)
Definition answered (channel : list Message) (w : World) : Prop :=
  ∃ init text input,
    channel = init ++ [AIMessage text []] ∧
    last (llm_log w) = Some input ∧
    llm_invoke C (length (llm_log w) - 1) input = (text, []).

(** The sequence a turn starts from. *)
Definition seeded (self : Bot) (query : string) : list Message :=
  match LangGraph.get (_memory self) (_config self) with
  | None => [SystemMessage (_system_prompt self); HumanMessage query]
  | Some persisted => persisted ++ [HumanMessage query]
  end.

(** The sessions a program can get to: built by the constructor, then
    driven through the public API. *)
Inductive reachable : Bot → World → Prop :=
  | reach_init user_id config w0 self w :
      __init__ C user_id config w0 = (Returned self, w) →
      reachable self w
  | reach_run self w query out self' w' :
      reachable self w →
      run C self query w = (out, self', w') →
      reachable self' w'
  | reach_new self w self' w' :
      reachable self w →
      start_new_conversation C self w = (self', w') →
      reachable self' w'
  | reach_clear self w out w' :
      reachable self w →
      clear_memory C self w = (out, w') →
      reachable self w'.

(** What holds of every reachable session: its thread identifier is the
    one in its invocation config, and every thread with persisted state
    has an identifier that was drawn. *)
Record session_inv (self : Bot) (w : World) : Prop := {
  inv_thread : LangGraph.thread_id_of (_config self) = Some (_thread_id self);
  inv_drawn : ∃ k, (k < uuids w)%nat ∧ _thread_id self = uuid4 C k;
  inv_memory : ∀ tid, is_Some (_memory self !! tid) →
               ∃ k, (k < uuids w)%nat ∧ tid = uuid4 C k
}.
End Vocabulary.

(* ===================================================================== *)
(** ** More vocabulary: the persisted sequence *)
(* ===================================================================== *)

(** Every tool call of the sequence is answered: an assistant message with
    tool calls is followed by the tool-result messages of its calls, one for
    each and in their order, and no tool-result message stands elsewhere. *)
Inductive well_answered : list Message → Prop :=
  | answered_nil : well_answered []
  | answered_plain m ms :
      message_type m ≠ tool →
      getattr_tool_calls m = [] →
      well_answered ms →
      well_answered (m :: ms)
  | answered_calls text tool_calls tool_messages ms :
      tool_call_id <$> tool_messages = Some ∘ tc_id <$> tool_calls →
      well_answered ms →
      well_answered (AIMessage text tool_calls :: tool_messages ++ ms).

(* ===================================================================== *)
(** ** Config files, the user profile and the containers *)
(* ===================================================================== *)

(** *** [src/app.py]: [handle_user_login] *)

(** The terminal and the home directory: [profile] is the JSON object of
    [~/.agentic_chatbot/config.json], [None] when the file is not there;
    [typed] is what [Prompt.ask] returns at the prompts to come. *)
Record Terminal := {
  profile : option (gmap string string);
  typed : list string
}.

(** [handle_user_login()], [relogin] being the flag [--relogin] of the
    command line.  (What is printed is left out.) *)
Definition handle_user_login (relogin : bool) (t : Terminal)
  : Outcome string * Terminal :=
  match relogin, profile t with
  | false, Some config =>
      match config !! "user_id" with
      | Some user_id => (Returned user_id, t)
      | None => (Raised (KeyError "user_id"), t)
      end
  | _, _ =>
      match typed t with
      | [] => (Raised (Error "EOF when reading a line"), t)
      | user_id :: rest =>
          (Returned user_id,
           {| profile := Some {[ "user_id" := user_id ]}; typed := rest |})
      end
  end.

(** *** [src/app.py]: [initialize_containers] *)

(** Reading a local variable that no assignment has reached *)
Definition UnboundLocalError (name : string) : Exception :=
  Error ("cannot access local variable '" +:+ name +:+
         "' where it is not associated with a value").

(** The arguments of [client.containers.run] that come from the config. *)
Record RunSpec := {
  image : Yaml;
  port_1 : Yaml;
  port_2 : Yaml;
  (** [NEO4J_AUTH={username}/{password}], for Neo4j *)
  auth : option (Yaml * Yaml)
}.

Definition neo4j_spec (config : Yaml) : Outcome RunSpec :=
  c ← getitem config "graph_store" ≫= λ c, getitem c "config";
  image ← getitem c "image";
  port_1 ← getitem c "ports" ≫= λ p, getindex p 0;
  port_2 ← getitem c "ports" ≫= λ p, getindex p 1;
  username ← getitem c "username";
  password ← getitem c "password";
  mret {| image := image; port_1 := port_1; port_2 := port_2;
          auth := Some (username, password) |}.

Definition qdrant_spec (config : Yaml) : Outcome RunSpec :=
  c ← getitem config "vector_store" ≫= λ c, getitem c "config";
  image ← getitem c "image";
  port_1 ← getitem c "ports" ≫= λ p, getindex p 0;
  port_2 ← getitem c "ports" ≫= λ p, getindex p 1;
  mret {| image := image; port_1 := port_1; port_2 := port_2; auth := None |}.

Section Containers.
Context {Daemon Container : Type}.
(** [client.containers.run(.., detach=True, ..)] *)
Context (containers_run : RunSpec → Daemon → Outcome Container * Daemon).

(** [try: x = client.containers.run(...)  except Exception as e: print(..)]:
    the local variable, bound or not, the daemon, and the line printed. *)
Definition try_run (label : string) (spec : Outcome RunSpec) (d : Daemon)
  : option Container * Daemon * list string :=
  match spec with
  | Raised e =>
      (None, d, ["Error starting " +:+ label +:+ " container: " +:+ py_str e])
  | Returned spec =>
      match containers_run spec d with
      | (Returned container, d') => (Some container, d', [])
      | (Raised e, d') =>
          (None, d', ["Error starting " +:+ label +:+ " container: " +:+ py_str e])
      end
  end.

(** [initialize_containers()]: [docker] is the daemon [docker.from_env()]
    reaches, [None] when it reaches none and raises; [config_file] is what
    [config.yaml] of the working directory holds, [None] when the file is
    not there.  (The ten seconds of sleep are left out.) *)
Definition initialize_containers (docker : option Daemon)
    (config_file : option Yaml)
  : Outcome (list Container) * option Daemon * list string :=
  match docker with
  | None => (Raised (Error "Error while fetching server API version"), None, [])
  | Some d =>
      match config_file with
      | None => (Raised (FileNotFoundError "config.yaml"), Some d, [])
      | Some config =>
          let '(neo4j_container, d1, printed1) :=
            try_run "Neo4j" (neo4j_spec config) d in
          let '(qdrant_container, d2, printed2) :=
            try_run "Qdrant" (qdrant_spec config) d1 in
          (match qdrant_container, neo4j_container with
           | Some qdrant, Some neo4j => Returned [qdrant; neo4j]
           | None, _ => Raised (UnboundLocalError "qdrant_container")
           | Some _, None => Raised (UnboundLocalError "neo4j_container")
           end,
           Some d2, printed1 ++ printed2)
      end
  end.
End Containers.

(** *** A config file, a memory backend and a Docker daemon to start on *)

Module Startup.
Definition store (provider image : string) (ports : list Z)
    (rest : gmap string Yaml) : Yaml :=
  YMap {[ "provider" := YStr provider;
          "config" := YMap (<[ "image" := YStr image ]>
                            (<[ "ports" := YList (YInt <$> ports) ]> rest)) ]}.

Definition graph_store (ports : list Z) : Yaml :=
  store "neo4j" "neo4j:latest" ports
    {[ "url" := YStr "bolt://localhost:7687";
       "username" := YStr "neo4j"; "password" := YStr "password" ]}.

Definition vector_store (ports : list Z) : Yaml :=
  store "qdrant" "qdrant/qdrant" ports {[ "host" := YStr "localhost" ]}.

Definition config_yaml : Yaml :=
  YMap {[ "vector_store" := vector_store [6333; 6334]%Z;
          "graph_store" := graph_store [7474; 7687]%Z ]}.

(** The file with Qdrant asked to publish on a port of Neo4j. *)
Definition clashing_yaml : Yaml :=
  YMap {[ "vector_store" := vector_store [7474; 6334]%Z;
          "graph_store" := graph_store [7474; 7687]%Z ]}.

(** The file after the vector store has been taken out. *)
Definition graph_only_yaml : Yaml :=
  YMap {[ "graph_store" := graph_store [7474; 7687]%Z ]}.

(** A backend whose client is the config it was made from. *)
Definition from_config (config : MemConfig) : Outcome MemConfig :=
  Returned config.

(** A backend that cannot be reached. *)
Definition unreachable (config : MemConfig) : Outcome MemConfig :=
  Raised (Error "Connection refused").

(** A daemon is the host ports its containers publish; it starts a
    container when the first host port asked for is free, and the
    container is known by that port. *)
Definition containers_run (spec : RunSpec) (published : list Z)
  : Outcome Z * list Z :=
  match port_1 spec with
  | YInt port =>
      if bool_decide (port ∈ published)
      then (Raised (Error "port is already allocated"), published)
      else (Returned port, port :: published)
  | _ => (Raised (Error "invalid port"), published)
  end.
End Startup.
(* ===================================================================== *)
(** ** A concrete setting *)
(* ===================================================================== *)

(** Collaborators to run the session on: a model that can be built and
    takes the tools, a memory service that keeps the facts of each user and
    whose search is out of order, tools that find their config file and a
    client made earlier, a tokenizer of four characters a token, and the
    approximate counter of the library for messages without tool calls. *)
Module Demo.
Definition Store := list (string * string).

Definition role (m : Message) : string :=
  match m with
  | SystemMessage _ => "system"
  | HumanMessage _ => "user"
  | AIMessage _ _ => "assistant"
  | ToolMessage _ _ => "tool"
  end.

Definition speaker (m : Message) : string :=
  match m with
  | SystemMessage _ => "System"
  | HumanMessage _ => "Human"
  | AIMessage _ _ => "AI"
  | ToolMessage _ _ => "Tool"
  end.

Definition collaborators (llm : nat → list Message → string * list ToolCall)
  : Collaborators Store := {|
  init_chat_model model temperature := Returned ();
  bind_tools tools := Returned ();
  llm_invoke := llm;
  get_num_tokens s := (Z.of_nat (String.length s) `div` 4)%Z;
  get_buffer_string ms :=
    String.concat (String "010"%char EmptyString)
    ((λ m, speaker m +:+ ": " +:+ content m) <$> ms);
  approx_tokens m :=
    ((String.length (content m) + String.length (role m) + 3) `div` 4 + 3)%nat;
  uuid4 n := "thread-" +:+ pretty n;
  next_task n := n;
  Memory := unit;
  config_file s := Some Startup.config_yaml;
  tools_lt_mem s := Some ();
  from_config s config := Returned ();
  set_tools_lt_mem client s := s;
  mem0_add client s r c u := (Returned (), (u, c) :: s);
  mem0_search client s q u := (Raised (Error "connection refused"), s);
  mem0_delete_all s u := (Returned (), filter (λ p, p.1 ≠ u) s);
  validation_error t args := Error ("validation error for " +:+ t)
|}.

Definition world : Env Store :=
  {| llm_log := []; lt_mem := []; uuids := 0; ticks := 0 |}.

Definition config (max_context recursion_limit : option Z) : Config :=
  {| system_prompt := Some "You are helpful.";
     llm := Some (LlmMapping {| model := None; temperature := None;
                                max_context := max_context |});
     recursion_limit := recursion_limit |}.

Definition tools : list (Tool Store) :=
  [add_update_memory (collaborators (λ _ _, ("", [])));
   fetch_memory (collaborators (λ _ _, ("", [])))].

(** The session [AgenticChatBot("ann", mem, config)]; the constructor
    draws the thread identifier ["thread-0"].  (The tools do not depend on
    the model the collaborators come with.) *)
Definition session (max_context recursion_limit : option Z)
  : AgenticChatBot Store :=
  {| _user_id := "ann";
     _system_prompt := "You are helpful.";
     _llm_config := {| model := None; temperature := None;
                       max_context := max_context |};
     _thread_id := "thread-0";
     _config :=
       <["recursion_limit" := CInt (default 25%Z recursion_limit)]>
         {[ "configurable" := CDict {[ "thread_id" := "thread-0" ]} ]};
     _memory := ∅;
     _tools := tools;
     _tools_map := foldl (λ m t, <[tool_name t := t]> m) ∅ tools |}.

Definition world1 : Env Store :=
  {| llm_log := []; lt_mem := []; uuids := 1; ticks := 0 |}.

(** A model that answers at once. *)
Definition greeter (n : nat) (input : list Message) : string * list ToolCall :=
  ("Hello!", []).

Definition remember : ToolCall :=
  {| tc_name := "add_update_memory";
     tc_args := {[ "memory" := "likes tea" ]};
     tc_id := "call_1" |}.

Definition recall : ToolCall :=
  {| tc_name := "fetch_memory";
     tc_args := {[ "query" := "tea" ]};
     tc_id := "call_2" |}.

Definition weather : ToolCall :=
  {| tc_name := "lookup_weather";
     tc_args := {[ "city" := "Pune" ]};
     tc_id := "call_3" |}.

(** A model that asks for the three tools first and answers then. *)
Definition assistant_with_tools (n : nat) (input : list Message)
  : string * list ToolCall :=
  match n with
  | O => ("", [remember; recall; weather])
  | _ => ("Noted.", [])
  end.

(** A model that asks for a tool in its first three answers. *)
Definition three_rounds (n : nat) (input : list Message)
  : string * list ToolCall :=
  if decide (n < 3)%nat then ("", [remember]) else ("Done.", []).

Definition long_query : string := "Tell me a very long story about the sea.".

Definition history : list Message :=
  [SystemMessage "You are helpful.";
   HumanMessage "hi"; AIMessage "Hello!" [];
   HumanMessage long_query; AIMessage "Once upon a time there was a sea." [];
   HumanMessage "thanks"].
End Demo.

(** A process whose tools have a state of their own: the config file at
    [config_path], the module global, and the facts the service keeps for
    each user.  A client is the config it was made from.  The rest is as in
    [Demo]. *)
Module Process.
Record Store := {
  file : option Yaml;
  client : option MemConfig;
  facts : list (string * string)
}.

Definition remember (user_id fact : string) (s : Store) : Store :=
  {| file := file s; client := client s; facts := (user_id, fact) :: facts s |}.

Definition collaborators : Collaborators Store := {|
  init_chat_model model temperature := Returned ();
  bind_tools tools := Returned ();
  llm_invoke := Demo.greeter;
  get_num_tokens := get_num_tokens (Demo.collaborators Demo.greeter);
  get_buffer_string := get_buffer_string (Demo.collaborators Demo.greeter);
  approx_tokens := approx_tokens (Demo.collaborators Demo.greeter);
  uuid4 := uuid4 (Demo.collaborators Demo.greeter);
  next_task := next_task (Demo.collaborators Demo.greeter);
  Memory := MemConfig;
  config_file := file;
  tools_lt_mem := client;
  from_config s config := Returned config;
  set_tools_lt_mem made s :=
    {| file := file s; client := Some made; facts := facts s |};
  mem0_add made s r c u := (Returned (), remember u c s);
  mem0_search made s q u :=
    (Returned (String.concat "; " (snd <$> filter (λ p, p.1 = u) (facts s))), s);
  mem0_delete_all s u :=
    (Returned (),
     {| file := file s; client := client s;
        facts := filter (λ p, p.1 ≠ u) (facts s) |});
  validation_error t args := Error ("validation error for " +:+ t)
|}.

(** The repository as it is: no [config.yaml] beside the package. *)
Definition shipped : Store := {| file := None; client := None; facts := [] |}.

(** The config file copied to where the tools look for it. *)
Definition installed : Store :=
  {| file := Some Startup.config_yaml; client := None; facts := [] |}.

Definition world (s : Store) : Env Store :=
  {| llm_log := []; lt_mem := s; uuids := 0; ticks := 0 |}.

Definition tools : list (Tool Store) :=
  [add_update_memory collaborators; fetch_memory collaborators].

(** The session [AgenticChatBot("ann", mem, config)] of this process. *)
Definition session : AgenticChatBot Store :=
  {| _user_id := "ann";
     _system_prompt := "You are helpful.";
     _llm_config := {| model := None; temperature := None; max_context := None |};
     _thread_id := "thread-0";
     _config :=
       <["recursion_limit" := CInt 25]>
         {[ "configurable" := CDict {[ "thread_id" := "thread-0" ]} ]};
     _memory := ∅;
     _tools := tools;
     _tools_map := foldl (λ m t, <[tool_name t := t]> m) ∅ tools |}.

(** The model asks to store a fact for another user. *)
Definition remember_for_bob : ToolCall :=
  {| tc_name := "add_update_memory";
     tc_args := {[ "memory" := "likes tea"; "user_id" := "bob" ]};
     tc_id := "call_1" |}.
End Process.

(* ===================================================================== *)
(** ** Facts about the trimming *)
(* ===================================================================== *)

Import LangChain.

Section TrimFacts.
Variable tok : Message → nat.

Abbreviation cnt := (token_sum tok).

Lemma token_sum_app l1 l2 : cnt (l1 ++ l2) = (cnt l1 + cnt l2)%Z.
Proof. unfold token_sum. rewrite sum_list_with_app. lia. Qed.

Lemma token_sum_nonneg l : (0 ≤ cnt l)%Z.
Proof. unfold token_sum. lia. Qed.

Lemma token_sum_reverse l : cnt (reverse l) = cnt l.
Proof. unfold token_sum. by rewrite sum_list_with_reverse. Qed.

Lemma token_sum_take_mono l k k' : (k ≤ k')%nat → (cnt (take k l) ≤ cnt (take k' l))%Z.
Proof.
  intros Hk. replace k' with (k + (k' - k))%nat by lia.
  rewrite <- take_take_drop, token_sum_app.
  pose proof (token_sum_nonneg (take (k' - k) (drop k l))). lia.
Qed.

Lemma bit_length_spec n : (n < 2 ^ bit_length n)%nat.
Proof.
  destruct n as [|n]; simpl bit_length; [simpl; lia|].
  apply Nat.log2_spec. lia.
Qed.

Lemma bisect_spec messages max_tokens iterations :
  ∀ left right,
    (left ≤ right ≤ length messages)%nat →
    left = 0%nat ∨ fits tok messages max_tokens left →
    (∀ k, (right < k ≤ length messages)%nat → ¬ fits tok messages max_tokens k) →
    (right - left < 2 ^ iterations)%nat →
    let r := bisect cnt iterations messages max_tokens left right in
    (r ≤ length messages)%nat ∧
    (r = 0%nat ∨ fits tok messages max_tokens r) ∧
    (∀ k, (r < k ≤ length messages)%nat → ¬ fits tok messages max_tokens k).
Proof.
  induction iterations as [|n IH]; intros left right Hlr Hleft Hright Hsize;
    cbn [bisect]; cbv zeta.
  - simpl in Hsize. assert (right = left) as -> by lia. split; [lia|]. done.
  - destruct (decide (right ≤ left)%nat) as [Hle|Hlt].
    { assert (right = left) as -> by lia. split; [lia|]. done. }
    set (mid := ((left + right + 1) `div` 2)%nat).
    assert (Hmid : (left < mid ≤ right)%nat).
    { unfold mid. split.
      - apply Nat.div_le_lower_bound; lia.
      - apply Nat.Div0.div_le_upper_bound. lia. }
    assert (H2 : (2 ^ S n = 2 * 2 ^ n)%nat) by (simpl; lia).
    assert (Hhalf : (right - mid < 2 ^ n ∧ mid - 1 - left < 2 ^ n)%nat).
    { assert (2 * mid + 1 >= left + right + 1)%nat.
      { unfold mid. pose proof (Nat.div_mod_eq (left + right + 1) 2).
        pose proof (Nat.mod_upper_bound (left + right + 1) 2). lia. }
      assert (2 * mid ≤ left + right + 1)%nat.
      { unfold mid. pose proof (Nat.div_mod_eq (left + right + 1) 2). lia. }
      lia. }
    fold mid.
    destruct (Z.leb_spec (cnt (take mid messages)) max_tokens) as [Hfit|Hnofit].
    + apply IH; [lia|by right|done|lia].
    + apply IH; [lia|done| |lia].
      intros k Hk Hfitk. unfold fits in Hfitk.
      pose proof (token_sum_take_mono messages mid k ltac:(lia)). lia.
Qed.

Lemma pop_until_type_snoc types l m :
  pop_until_type types (l ++ [m]) =
    if _is_message_type m types then l ++ [m] else pop_until_type types l.
Proof.
  unfold pop_until_type. rewrite reverse_snoc. simpl.
  destruct (_is_message_type m types); [|done].
  by rewrite reverse_cons, reverse_involutive.
Qed.

Lemma back_off_app types l l' k :
  (k ≤ length l)%nat → back_off types (l ++ l') k = back_off types l k.
Proof.
  induction k as [|k IH]; intros Hk; [done|]. simpl.
  rewrite lookup_app_l by lia. rewrite IH by lia. done.
Qed.

Lemma pop_until_type_back_off types l :
  pop_until_type types l = take (back_off types l (length l)) l.
Proof.
  induction l as [|m l IH] using rev_ind; [done|].
  rewrite pop_until_type_snoc, length_app. simpl.
  replace (length l + 1)%nat with (S (length l)) by lia. simpl.
  rewrite lookup_app_r by lia. rewrite Nat.sub_diag. simpl.
  destruct (_is_message_type m types).
  - rewrite take_ge; [done|]. rewrite length_app. simpl. lia.
  - rewrite back_off_app by lia. rewrite IH.
    rewrite take_app_le; [done|].
    clear. induction (length l) as [|k IHk]; simpl; [lia|].
    destruct (l !! k); [|lia]. destruct (_is_message_type _ _); lia.
Qed.

Lemma back_off_le types l idx : (back_off types l idx ≤ idx)%nat.
Proof.
  induction idx as [|k IH]; simpl; [lia|].
  destruct (l !! k); [|lia]. destruct (_is_message_type _ _); lia.
Qed.

Lemma take_back_off types l idx :
  (idx ≤ length l)%nat →
  take (back_off types l idx) l = pop_until_type types (take idx l).
Proof.
  intros Hle. pose proof (back_off_le types l idx) as Hb.
  assert (Heq : back_off types l idx = back_off types (take idx l) idx).
  { rewrite <- (take_drop idx l) at 1. apply back_off_app.
    rewrite length_take. lia. }
  rewrite pop_until_type_back_off, length_take_le, take_take, <- Heq by done.
  by rewrite Nat.min_l by lia.
Qed.

Lemma is_human_type m :
  _is_message_type m [human] = true ↔ ∃ c, m = HumanMessage c.
Proof.
  unfold _is_message_type. rewrite bool_decide_eq_true, list_elem_of_singleton.
  destruct m; simpl; split; try done; eauto; by intros [? ?].
Qed.

Lemma back_off_spec l idx :
  (idx ≤ length l)%nat →
  let j := back_off [human] l idx in
  (j = 0%nat ∨ (0 < j)%nat ∧ human_at l j) ∧
  (∀ k, (0 < k ≤ idx)%nat → human_at l k → (k ≤ j)%nat).
Proof.
  induction idx as [|k IH]; intros Hle; simpl.
  - split; [by left|]. intros; lia.
  - destruct (l !! k) as [m|] eqn:Hm; last first.
    { apply lookup_ge_None in Hm. lia. }
    destruct (_is_message_type m [human]) eqn:Hty.
    + apply is_human_type in Hty as [c ->]. split.
      * right. split; [lia|]. exists c. simpl. by rewrite Nat.sub_0_r.
      * intros; lia.
    + destruct IH as [IH1 IH2]; [lia|]. split; [done|].
      intros k' Hk' Hh. destruct (decide (k' = S k)) as [->|Hne].
      * destruct Hh as [c Hc]. simpl in Hc. rewrite Nat.sub_0_r in Hc.
        assert (m = HumanMessage c) as -> by congruence.
        assert (_is_message_type (HumanMessage c) [human] = true)
          by (apply is_human_type; eauto).
        congruence.
      * apply IH2; [lia|done].
Qed.

(** What [_first_max_tokens] returns when it is to end on a human message:
    the longest run of leading messages that is within the budget and ends
    on a human message, or nothing. *)
Lemma first_max_tokens_spec messages max_tokens :
  ∃ j, (j ≤ length messages)%nat ∧
    _first_max_tokens cnt messages max_tokens [human] = take j messages ∧
    (j = 0%nat ∨ ((0 < j)%nat ∧ human_at messages j ∧ fits tok messages max_tokens j)) ∧
    (∀ k, (0 < k ≤ length messages)%nat → fits tok messages max_tokens k →
          human_at messages k → (k ≤ j)%nat).
Proof.
  unfold _first_max_tokens. destruct messages as [|m0 ms] eqn:Hms.
  { exists 0%nat. simpl. split; [lia|]. split; [done|]. split; [by left|].
    intros; lia. }
  rewrite <- Hms. clear Hms m0 ms.
  destruct (Z.leb_spec (cnt messages) max_tokens) as [Hall|Hnot].
  - exists (back_off [human] messages (length messages)).
    pose proof (back_off_le [human] messages (length messages)) as Hle.
    destruct (back_off_spec messages (length messages)) as [H1 H2]; [lia|].
    split; [done|]. split; [apply pop_until_type_back_off|].
    assert (Hfit : ∀ k, fits tok messages max_tokens k).
    { intros k. unfold fits.
      destruct (decide (k ≤ length messages)%nat).
      - pose proof (token_sum_take_mono messages k (length messages) ltac:(lia)) as Hm.
        rewrite firstn_all in Hm. lia.
      - rewrite take_ge by lia. done. }
    split.
    + destruct H1 as [?|[? ?]]; [by left|right; split_and!; [done..|apply Hfit]].
    + intros k Hk _ Hh. by apply H2.
  - set (idx := bisect cnt (bit_length (length messages)) messages max_tokens
                  0 (length messages)).
    destruct (bisect_spec messages max_tokens (bit_length (length messages))
                0 (length messages)) as (Hi1 & Hi2 & Hi3).
    { lia. } { by left. } { intros; lia. }
    { rewrite Nat.sub_0_r. apply bit_length_spec. }
    fold idx in Hi1, Hi2, Hi3.
    exists (back_off [human] messages idx).
    pose proof (back_off_le [human] messages idx) as Hle.
    destruct (back_off_spec messages idx) as [H1 H2]; [lia|].
    split; [lia|]. split; [done|]. split.
    + destruct H1 as [?|[Hpos Hh]]; [by left|right; split_and!; [done..|]].
      destruct Hi2 as [Hz|Hfit]; [lia|].
      unfold fits in *.
      pose proof (token_sum_take_mono messages (back_off [human] messages idx) idx
                    ltac:(lia)). lia.
    + intros k Hk Hfit Hh. apply H2; [|done].
      destruct (decide (k ≤ idx)%nat); [lia|]. exfalso.
      apply (Hi3 k); [lia|done].
Qed.

Lemma suffix_take_reverse (rest w : list Message) :
  w `suffix_of` rest → take (length w) (reverse rest) = reverse w.
Proof.
  intros [pre ->]. rewrite reverse_app.
  rewrite take_app_le by (rewrite length_reverse; lia).
  rewrite take_ge by (rewrite length_reverse; lia). done.
Qed.

Lemma human_at_reverse (rest w : list Message) :
  w `suffix_of` rest → (0 < length w)%nat →
  human_at (reverse rest) (length w) ↔ starts_on_human w.
Proof.
  intros [pre ->] Hpos. unfold human_at, starts_on_human.
  rewrite reverse_app, lookup_app_l by (rewrite length_reverse; lia).
  rewrite reverse_lookup by lia.
  replace (length w - S (length w - 1))%nat with 0%nat by lia.
  destruct w as [|m tl]; [simpl in Hpos; lia|]. simpl. split.
  - intros [c Hc]. exists c, tl. congruence.
  - intros (c & tl' & Hc). exists c. congruence.
Qed.

Lemma last_max_tokens_spec messages max_tokens :
  let kept := pop_until_type [human; assistant; tool] messages in
  let sys := (split_system kept).1 in
  let rest := (split_system kept).2 in
  let budget := window_budget cnt max_tokens sys in
  ∃ w,
    _last_max_tokens cnt messages max_tokens true [human] [human; assistant; tool]
      = sys ++ w ∧
    w `suffix_of` rest ∧
    (w = [] ∨ valid_window cnt budget rest w) ∧
    (∀ w', valid_window cnt budget rest w' → (length w' ≤ length w)%nat).
Proof.
  intros kept sys rest budget.
  assert (Hmain : ∃ w,
    (match sys with [] => [] | sm :: _ => [sm] end)
      ++ reverse (_first_max_tokens cnt (reverse rest) budget [human]) = sys ++ w ∧
    w `suffix_of` rest ∧
    (w = [] ∨ valid_window cnt budget rest w) ∧
    (∀ w', valid_window cnt budget rest w' → (length w' ≤ length w)%nat)).
  { destruct (first_max_tokens_spec (reverse rest) budget)
      as (j & Hj & -> & Hjv & Hjmax).
    rewrite length_reverse in Hj.
    exists (drop (length rest - j) rest).
    assert (Hlen : length (drop (length rest - j) rest) = j)
      by (rewrite length_drop; lia).
    assert (Hsuf : drop (length rest - j) rest `suffix_of` rest)
      by apply suffix_drop.
    split_and!.
    - rewrite take_reverse, reverse_involutive.
      unfold sys. unfold split_system. destruct kept as [|[]]; done.
    - done.
    - destruct Hjv as [->|(Hpos & Hh & Hfit)].
      + left. rewrite Nat.sub_0_r. by rewrite drop_all.
      + right. split; [done| |].
        * apply (human_at_reverse rest); [done|lia|]. by rewrite Hlen.
        * unfold fits in Hfit. rewrite take_reverse, token_sum_reverse in Hfit.
          done.
    - intros w' [Hs' Hst' Hf'].
      destruct (decide (length w' = 0)%nat) as [->|Hne]; [lia|].
      rewrite Hlen. apply Hjmax.
      + rewrite length_reverse. apply suffix_length in Hs'. lia.
      + unfold fits. rewrite (suffix_take_reverse _ _ Hs'), token_sum_reverse. done.
      + apply human_at_reverse; [done|lia|done]. }
  destruct Hmain as (w & Heq & Hw).
  exists w. split; [|done]. rewrite <- Heq. clear Heq Hw.
  subst budget sys rest kept. unfold _last_max_tokens.
  destruct messages as [|m0 ms]; [done|].
  unfold split_system, window_budget.
  destruct (pop_until_type _ (m0 :: ms)) as [|[c| | |] rest]; simpl; done.
Qed.
End TrimFacts.

(* ===================================================================== *)
(** ** Facts about tool resolution *)
(* ===================================================================== *)

Section ToolFacts.
Context {Store : Type} (C : Collaborators Store).

Abbreviation Bot := (AgenticChatBot Store).
Abbreviation World := (Env Store).

Lemma invoke_tool_unregistered (self : Bot) tc s :
  _tools_map self !! tc_name tc = None →
  invoke_tool self tc s =
    (Returned (ToolMessage (tc_id tc) "Tool doesn't exist!"), tc, s).
Proof. intros H. unfold invoke_tool. by rewrite H. Qed.

Lemma invoke_tool_registered (self : Bot) tc tool_fn s :
  _tools_map self !! tc_name tc = Some tool_fn →
  invoke_tool self tc s =
    let r := ainvoke tool_fn (<["user_id" := _user_id self]> (tc_args tc)) s in
    (Returned (ToolMessage (tc_id tc) (result_content r.1)),
     injected self tc, r.2).
Proof.
  intros H. unfold invoke_tool, injected. rewrite H.
  destruct (ainvoke _ _ _) as [[res|e] s']; reflexivity.
Qed.

Lemma invoke_tool_returns (self : Bot) tc s :
  ∃ text s',
    invoke_tool self tc s =
      (Returned (ToolMessage (tc_id tc) text), injected self tc, s').
Proof.
  destruct (_tools_map self !! tc_name tc) as [tool_fn|] eqn:H.
  - rewrite (invoke_tool_registered _ _ _ _ H). simpl. eauto.
  - rewrite (invoke_tool_unregistered _ _ _ H). unfold injected. rewrite H. eauto.
Qed.

Lemma delete_nodup_elem (l : list nat) k i j :
  NoDup l → l !! k = Some i → j ∈ delete k l ↔ j ∈ l ∧ j ≠ i.
Proof.
  intros Hnd Hk. pose proof (delete_Permutation l k i Hk) as Hp.
  rewrite Hp in Hnd. apply NoDup_cons in Hnd as [Hni _].
  rewrite (elem_of_Permutation_proper _ _ _ Hp). rewrite elem_of_cons.
  split.
  - intros Hj. split; [by right|]. intros ->. done.
  - intros [[->|Hj] Hne]; done.
Qed.

Lemma gather_loop_spec (self : Bot) (orig : list ToolCall) n :
  ∀ pending results calls w,
    gather_inv self orig pending results calls →
    (length pending ≤ n)%nat →
    ∃ results' calls' w',
      gather_loop C self n pending results calls w
        = (Returned results', calls', w') ∧
      gather_inv self orig [] results' calls' ∧
      llm_log w' = llm_log w ∧ uuids w' = uuids w.
Proof.
  induction n as [|n IH]; intros pending results calls w Hinv Hlen.
  - destruct pending; [|simpl in Hlen; lia]. simpl. eauto 10.
  - simpl. destruct pending as [|p pending'] eqn:Hp.
    { simpl. eauto 10. }
    rewrite <- Hp in *.
    assert (Hk : (next_task C (ticks w) `mod` length pending < length pending)%nat).
    { apply Nat.mod_upper_bound. rewrite Hp. simpl. lia. }
    apply lookup_lt_is_Some in Hk as [i Hi]. rewrite Hi.
    assert (Hin : i ∈ pending) by (eapply list_elem_of_lookup_2; eauto).
    destruct (inv_pending _ _ _ _ _ Hinv i Hin) as [Hlt Hci].
    apply lookup_lt_is_Some in Hlt as [tc Htc]. rewrite Hci, Htc.
    destruct (invoke_tool_returns self tc (lt_mem w)) as (text & s' & Hinvoke).
    simpl. rewrite Hinvoke.
    edestruct (IH (delete (next_task C (ticks w) `mod` length pending)%nat pending))
      as (results' & calls' & w' & Hrun & Hinv' & Hlog & Huu); last first.
    { rewrite Hrun. eauto 10. }
    { rewrite length_delete; [lia|eauto]. }
    assert (Hlt : (i < length orig)%nat) by (apply lookup_lt_is_Some; eauto).
    split.
    + rewrite length_insert. apply Hinv.
    + rewrite length_insert. apply Hinv.
    + pose proof (inv_nodup _ _ _ _ _ Hinv) as Hnd.
      rewrite (delete_Permutation _ _ _ Hi) in Hnd.
      by apply NoDup_cons in Hnd as [_ ?].
    + intros j Hj.
      apply (delete_nodup_elem _ _ _ _ (inv_nodup _ _ _ _ _ Hinv) Hi) in Hj
        as [Hj Hne].
      destruct (inv_pending _ _ _ _ _ Hinv j Hj) as [? Hcj].
      split; [done|]. by rewrite list_lookup_insert_ne.
    + intros j tcj Hj Hnotin. destruct (decide (j = i)) as [->|Hne].
      * assert (tcj = tc) as -> by congruence.
        rewrite !list_lookup_insert_eq
          by (rewrite ?(inv_calls _ _ _ _ _ Hinv), ?(inv_results _ _ _ _ _ Hinv); done).
        split; [done|]. exists (lt_mem w), (ToolMessage (tc_id tc) text).
        by rewrite Hinvoke.
      * rewrite !list_lookup_insert_ne by done.
        apply (inv_done _ _ _ _ _ Hinv); [done|].
        intros Hjp. apply Hnotin.
        apply (delete_nodup_elem _ _ _ _ (inv_nodup _ _ _ _ _ Hinv) Hi). done.
Qed.

Lemma gather_inv_init (self : Bot) (tool_calls : list ToolCall) :
  gather_inv self tool_calls (seq 0 (length tool_calls))
    (replicate (length tool_calls) None) tool_calls.
Proof.
  split.
  - by rewrite length_replicate.
  - done.
  - apply NoDup_seq.
  - intros i Hi. apply elem_of_seq in Hi. split; [lia|done].
  - intros i tc Hi Hnot. exfalso. apply Hnot, elem_of_seq.
    apply lookup_lt_Some in Hi. lia.
Qed.

(** [gather] returns one message per call, at the call's position, and
    leaves each call as its coroutine left it. *)
Lemma gather_spec (self : Bot) (tool_calls : list ToolCall) (w : World) :
  ∃ tool_messages w',
    gather C self tool_calls w
      = (Returned tool_messages, injected self <$> tool_calls, w') ∧
    Forall2 (λ tc m, ∃ s, (invoke_tool self tc s).1.1 = Returned m)
      tool_calls tool_messages ∧
    llm_log w' = llm_log w ∧ uuids w' = uuids w.
Proof.
  unfold gather.
  destruct (gather_loop_spec self tool_calls (length tool_calls)
              (seq 0 (length tool_calls))
              (replicate (length tool_calls) None) tool_calls w)
    as (results & calls & w' & Hrun & Hinv & Hlog & Huu).
  { apply gather_inv_init. }
  { by rewrite length_seq. }
  rewrite Hrun.
  assert (Hcalls : calls = injected self <$> tool_calls).
  { apply list_eq. intros i. rewrite list_lookup_fmap.
    destruct (tool_calls !! i) as [tc|] eqn:Hi; simpl.
    - apply (inv_done _ _ _ _ _ Hinv i tc Hi). apply not_elem_of_nil.
    - apply lookup_ge_None. apply lookup_ge_None in Hi.
      by rewrite (inv_calls _ _ _ _ _ Hinv). }
  assert (Hres : Forall2 (λ tc r, ∃ s m, (invoke_tool self tc s).1.1 = Returned m
                                        ∧ r = Some m) tool_calls results).
  { apply Forall2_same_length_lookup. split.
    - by rewrite (inv_results _ _ _ _ _ Hinv).
    - intros i tc r Hi Hr.
      destruct (inv_done _ _ _ _ _ Hinv i tc Hi) as [_ (s & m & Hm & Hr')];
        [apply not_elem_of_nil|].
      exists s, m. split; [done|congruence]. }
  exists (omap id results), w'. rewrite Hcalls. split; [done|].
  split; [|done].
  clear -Hres. induction Hres as [|tc r tcs rs (s & m & Hm & ->) _ IH]; simpl.
  - constructor.
  - constructor; eauto.
Qed.
End ToolFacts.

(* ===================================================================== *)
(** ** Facts about the two nodes and the graph *)
(* ===================================================================== *)

Section NodeFacts.
Context {Store : Type} (C : Collaborators Store).

Abbreviation Bot := (AgenticChatBot Store).
Abbreviation World := (Env Store).

Lemma resolved_message (self : Bot) tc m :
  (∃ s, (invoke_tool self tc s).1.1 = Returned m) →
  ∃ text, m = ToolMessage (tc_id tc) text.
Proof.
  intros [s Hm].
  destruct (invoke_tool_returns self tc s) as (text & s' & Heq).
  rewrite Heq in Hm. simpl in Hm. exists text. congruence.
Qed.

Lemma resolved_ids (self : Bot) tool_calls tool_messages :
  Forall2 (λ tc m, ∃ s, (invoke_tool self tc s).1.1 = Returned m)
    tool_calls tool_messages →
  tool_call_id <$> tool_messages = Some ∘ tc_id <$> tool_calls.
Proof.
  induction 1 as [|tc m tcs ms Hm _ IH]; [done|]. rewrite !fmap_cons.
  apply resolved_message in Hm as [text ->]. by rewrite IH.
Qed.

Lemma execute_tools_spec (self : Bot) channel text tool_calls (w : World) :
  ∃ tool_messages w',
    _execute_tools C self {| messages := channel ++ [AIMessage text tool_calls] |} w
      = (Returned tool_messages,
         channel ++ [AIMessage text (injected self <$> tool_calls)], w') ∧
    Forall2 (λ tc m, ∃ s, (invoke_tool self tc s).1.1 = Returned m)
      tool_calls tool_messages ∧
    llm_log w' = llm_log w ∧ uuids w' = uuids w.
Proof.
  unfold _execute_tools. simpl. rewrite last_snoc. simpl.
  destruct (gather_spec C self tool_calls w)
    as (tool_messages & w' & Hg & Hall & Hlog & Huu).
  rewrite Hg. rewrite removelast_last. eauto 10.
Qed.

Lemma executor_spec (self : Bot) channel (w : World) :
  _executor C self {| messages := channel |} w =
    (Returned [AIMessage
                 (llm_invoke C (length (llm_log w)) (llm_input C self channel)).1
                 (llm_invoke C (length (llm_log w)) (llm_input C self channel)).2],
     channel, log_llm_call (llm_input C self channel) w).
Proof.
  unfold _executor, llm_input, _trim_messages. simpl.
  destruct (max_context (_llm_config self)) as [mc|]; simpl.
  - destruct (negb (mc =? 0)%Z && (mc <? _count_tokens C channel)%Z); simpl;
      destruct (llm_invoke C _ _); done.
  - destruct (llm_invoke C _ _); done.
Qed.

(** One superstep of the [agent] node. *)
Lemma loop_agent (self : Bot) steps channel (w : World) :
  LangGraph.loop (_setup_graph C self) (S steps) (Some agent) channel w =
    let input := llm_input C self channel in
    let answer := llm_invoke C (length (llm_log w)) input in
    LangGraph.loop (_setup_graph C self) steps
      (match answer.2 with [] => None | _ => Some execute_tools end)
      (channel ++ [AIMessage answer.1 answer.2])
      (log_llm_call input w).
Proof.
  cbn [LangGraph.loop]. cbn [LangGraph.node_fn _setup_graph].
  rewrite executor_spec. cbv zeta.
  cbn [LangGraph.next_node _setup_graph]. unfold _tool_exists. simpl.
  rewrite last_snoc.
  destruct (llm_invoke C _ _) as [text [|tc tcs]]; done.
Qed.

(** One superstep of the [execute_tools] node. *)
Lemma loop_execute_tools (self : Bot) steps channel text tool_calls (w : World) :
  ∃ tool_messages w',
    _execute_tools C self {| messages := channel ++ [AIMessage text tool_calls] |} w
      = (Returned tool_messages,
         channel ++ [AIMessage text (injected self <$> tool_calls)], w') ∧
    Forall2 (λ tc m, ∃ s, (invoke_tool self tc s).1.1 = Returned m)
      tool_calls tool_messages ∧
    llm_log w' = llm_log w ∧ uuids w' = uuids w ∧
    LangGraph.loop (_setup_graph C self) (S steps) (Some execute_tools)
      (channel ++ [AIMessage text tool_calls]) w =
    LangGraph.loop (_setup_graph C self) steps (Some agent)
      (channel ++ [AIMessage text (injected self <$> tool_calls)] ++ tool_messages)
      w'.
Proof.
  destruct (execute_tools_spec self channel text tool_calls w)
    as (tool_messages & w' & Hex & Hall & Hlog & Huu).
  exists tool_messages, w'. split_and!; try done.
  cbn [LangGraph.loop]. cbn [LangGraph.node_fn _setup_graph].
  rewrite Hex. cbn [LangGraph.next_node _setup_graph].
  by rewrite <- app_assoc.
Qed.
End NodeFacts.

(* ===================================================================== *)
(** ** Facts about a turn *)
(* ===================================================================== *)

Section TurnFacts.
Context {Store : Type} (C : Collaborators Store).

Abbreviation Bot := (AgenticChatBot Store).
Abbreviation World := (Env Store).

Lemma asked_weaken n0 (w : World) : asked C n0 w → asked_before_last C n0 w.
Proof. intros H k input ? _ ?. by eapply H. Qed.

Lemma asked_log_eq n0 (w w' : World) :
  llm_log w' = llm_log w → asked C n0 w → asked C n0 w'.
Proof. unfold asked. by intros ->. Qed.

(** What a run of the graph ends in, from where it stands. *)
Lemma loop_turn (self : Bot) n0 steps :
  ∀ task channel (w : World),
    match task with
    | Some agent => asked C n0 w
    | Some execute_tools =>
        asked C n0 w ∧ ∃ init text tcs, channel = init ++ [AIMessage text tcs]
    | None => answered C channel w ∧ asked_before_last C n0 w
    end →
    let r := LangGraph.loop (_setup_graph C self) steps task channel w in
    match r.1.1 with
    | LangGraph.done => answered C r.1.2 r.2 ∧ asked_before_last C n0 r.2
    | LangGraph.out_of_steps => asked_before_last C n0 r.2
    | LangGraph.failed _ => False
    end.
Proof.
  induction steps as [|steps IH]; intros task channel w Hpre.
  - simpl. destruct task as [[|]|]; [by apply asked_weaken| |by destruct Hpre].
    destruct Hpre as [? _]. by apply asked_weaken.
  - destruct task as [[|]|].
    + rewrite loop_agent. cbv zeta.
      set (input := llm_input C self channel).
      destruct (llm_invoke C (length (llm_log w)) input) as [text tcs] eqn:Hans.
      simpl. destruct tcs as [|tc tcs]; apply IH.
      * split.
        -- exists channel, text, input. split; [done|]. simpl.
           rewrite last_snoc, length_app. simpl.
           replace (length (llm_log w) + 1 - 1)%nat with (length (llm_log w)) by lia.
           done.
        -- intros k inp Hk Hlt Hin. simpl in Hlt, Hin.
           rewrite length_app in Hlt. simpl in Hlt.
           rewrite lookup_app_l in Hin by lia. by eapply Hpre.
      * split; [|eauto].
        intros k inp Hk Hin. simpl in Hin.
        destruct (decide (k < length (llm_log w))%nat).
        -- rewrite lookup_app_l in Hin by lia. by eapply Hpre.
        -- apply lookup_app_Some in Hin as [Hin|[_ Hin]].
           { apply lookup_lt_Some in Hin. lia. }
           apply list_lookup_singleton_Some in Hin as [Hk0 <-].
           replace k with (length (llm_log w)) by lia. by rewrite Hans.
    + destruct Hpre as [Hasked (init & text & tcs & ->)].
      destruct (loop_execute_tools C self steps init text tcs w)
        as (tool_messages & w' & _ & _ & Hlog & _ & ->).
      apply IH. by eapply asked_log_eq.
    + simpl. done.
Qed.

(** A run of the graph appends to the channel and to the log of model
    calls; it draws no identifier. *)
Lemma loop_extends (self : Bot) seed steps :
  ∀ task channel (w : World),
    match task with
    | Some execute_tools =>
        ∃ init text tcs, channel = init ++ [AIMessage text tcs] ∧
                         seed `prefix_of` init
    | _ => seed `prefix_of` channel
    end →
    let r := LangGraph.loop (_setup_graph C self) steps task channel w in
    seed `prefix_of` r.1.2 ∧ llm_log w `prefix_of` llm_log r.2 ∧
    uuids r.2 = uuids w.
Proof.
  induction steps as [|steps IH]; intros task channel w Hpre.
  - simpl. destruct task as [[|]|]; try done.
    destruct Hpre as (init & text & tcs & -> & Hp).
    split; [|done]. by apply prefix_app_r.
  - destruct task as [[|]|].
    + rewrite loop_agent. cbv zeta.
      set (input := llm_input C self channel).
      destruct (llm_invoke C (length (llm_log w)) input) as [text tcs].
      simpl.
      edestruct (IH (match tcs with [] => None | _ => Some execute_tools end)
                   (channel ++ [AIMessage text tcs]) (log_llm_call input w))
        as (H1 & H2 & H3).
      { destruct tcs; [by apply prefix_app_r|eauto 10]. }
      split; [done|]. split; [|done].
      etrans; [|exact H2]. simpl. by apply prefix_app_r.
    + destruct Hpre as (init & text & tcs & -> & Hp).
      destruct (loop_execute_tools C self steps init text tcs w)
        as (tool_messages & w' & _ & _ & Hlog & Huu & ->).
      edestruct (IH (Some agent)
                   (init ++ [AIMessage text (injected self <$> tcs)] ++ tool_messages) w')
        as (H1 & H2 & H3).
      { by apply prefix_app_r. }
      rewrite <- Hlog, <- Huu. done.
    + simpl. done.
Qed.

Lemma execute_tools_log (self : Bot) state (w : World) :
  llm_log (_execute_tools C self state w).2 = llm_log w.
Proof.
  unfold _execute_tools. destruct (last (messages state)) as [message|]; [|done].
  destruct (gather_spec C self (getattr_tool_calls message) w)
    as (tool_messages & w' & -> & _ & Hlog & _).
  done.
Qed.

(** A run of the graph calls the model at most once a superstep. *)
Lemma loop_calls_bounded (self : Bot) steps :
  ∀ task channel (w : World),
    let r := LangGraph.loop (_setup_graph C self) steps task channel w in
    (length (llm_log r.2) ≤ length (llm_log w) + steps)%nat.
Proof.
  induction steps as [|steps IH]; intros task channel w; [simpl; lia|].
  destruct task as [[|]|]; [| |simpl; lia].
  - rewrite loop_agent. cbv zeta.
    etrans; [apply IH|]. simpl. rewrite length_app. simpl. lia.
  - cbn [LangGraph.loop]. cbn [LangGraph.node_fn _setup_graph].
    pose proof (execute_tools_log self {| messages := channel |} w) as Hlog.
    destruct (_execute_tools C self {| messages := channel |} w)
      as [[[update|e] channel_after] w']; simpl in Hlog.
    + cbn [LangGraph.next_node _setup_graph]. cbv zeta.
      etrans; [apply IH|]. rewrite Hlog. lia.
    + simpl. rewrite Hlog. lia.
Qed.

(** The first call of a turn is on the sequence the turn starts from. *)
Lemma loop_first_call (self : Bot) steps channel (w : World) :
  (0 < steps)%nat →
  let r := LangGraph.loop (_setup_graph C self) steps (Some agent) channel w in
  llm_log r.2 !! length (llm_log w) = Some (llm_input C self channel).
Proof.
  destruct steps as [|steps]; [lia|intros _].
  rewrite loop_agent. cbv zeta.
  set (input := llm_input C self channel).
  set (answer := llm_invoke C (length (llm_log w)) input).
  edestruct (loop_extends self [] steps
               (match answer.2 with [] => None | _ => Some execute_tools end)
               (channel ++ [AIMessage answer.1 answer.2]) (log_llm_call input w))
    as (_ & Hlog & _).
  { destruct (answer.2); [apply prefix_nil|]. eexists _, _, _. split; [done|].
    apply prefix_nil. }
  eapply prefix_lookup_Some; [|exact Hlog]. simpl.
  rewrite lookup_app_r by lia. by rewrite Nat.sub_diag.
Qed.

(** [run], once the invocation config has been accepted. *)
Lemma run_unfold (self : Bot) query (w : World) tid :
  LangGraph.thread_id_of (_config self) = Some tid →
  (1 ≤ LangGraph.recursion_limit_of (_config self))%Z →
  run C self query w =
    let limit := LangGraph.recursion_limit_of (_config self) in
    let r := LangGraph.loop (_setup_graph C self) (Z.to_nat limit)
               (Some agent) (seeded self query) w in
    (match r.1.1 with
     | LangGraph.done => Returned (VDict {[ "messages" := VMessages r.1.2 ]})
     | LangGraph.out_of_steps => Raised (GraphRecursionError limit)
     | LangGraph.failed e => Raised e
     end,
     set_memory (<[tid := r.1.2]> (_memory self)) self, r.2).
Proof.
  intros Htid Hlimit.
  assert (Hget : LangGraph.get (_memory self) (_config self) = _memory self !! tid).
  { unfold LangGraph.get. by rewrite Htid. }
  unfold run, LangGraph.ainvoke, seeded. rewrite Hget, Htid.
  rewrite (proj2 (Z.ltb_ge _ _) Hlimit). cbv zeta.
  destruct (_memory self !! tid) as [persisted|] eqn:Hmem; cbn [default].
  - rewrite lookup_singleton_eq.
    by destruct (LangGraph.loop (_setup_graph C self) _ _ _ _) as [[[]]].
  - rewrite lookup_insert_ne, lookup_insert_ne, lookup_singleton_eq by done.
    rewrite app_nil_l.
    by destruct (LangGraph.loop (_setup_graph C self) _ _ _ _) as [[[]]].
Qed.

(** [run], when the invocation config asks for less than one step. *)
Lemma run_rejected (self : Bot) query (w : World) tid :
  LangGraph.thread_id_of (_config self) = Some tid →
  (LangGraph.recursion_limit_of (_config self) < 1)%Z →
  run C self query w =
    (Raised (ValueError "recursion_limit must be at least 1"),
     set_memory (_memory self) self, w).
Proof.
  intros Htid Hlimit. unfold run, LangGraph.ainvoke. rewrite Htid.
  destruct (Z.ltb_spec (LangGraph.recursion_limit_of (_config self)) 1) as [_|?];
    [done|lia].
Qed.

(** What the constructor returns, when it returns. *)
Lemma init_returned user_id config (w0 : World) (self : Bot) (w : World) :
  __init__ C user_id config w0 = (Returned self, w) →
  ∃ prompt llm_config,
    system_prompt config = Some prompt ∧
    llm config = Some (LlmMapping llm_config) ∧
    init_chat_model C (default "openai:gpt-4o" (model llm_config))
      (default "0.7" (temperature llm_config)) = Returned () ∧
    bind_tools C ["add_update_memory"; "fetch_memory"] = Returned () ∧
    w = (draw_uuid C w0).2 ∧
    self =
      {| _user_id := user_id;
         _system_prompt := prompt;
         _llm_config := llm_config;
         _thread_id := uuid4 C (uuids w0);
         _config :=
           <["recursion_limit" := CInt (default 25%Z (recursion_limit config))]>
             {[ "configurable" := CDict {[ "thread_id" := uuid4 C (uuids w0) ]} ]};
         _memory := ∅;
         _tools := [add_update_memory C; fetch_memory C];
         _tools_map :=
           <["fetch_memory" := fetch_memory C]>
             (<["add_update_memory" := add_update_memory C]> ∅) |}.
Proof.
  unfold __init__, _setup_tools. intros Hinit.
  destruct (system_prompt config) as [prompt|]; [|done].
  destruct (llm config) as [[llm_config|type_name]|]; [|done..].
  destruct (init_chat_model C _ _) as [[]|e] eqn:Hmodel; [|done].
  simpl in Hinit.
  destruct (bind_tools C _) as [[]|e] eqn:Hbind; [|done].
  simpl in Hinit. injection Hinit as <- <-.
  exists prompt, llm_config. split_and!; done.
Qed.

Lemma session_inv_reachable (self : Bot) (w : World) :
  reachable C self w → session_inv C self w.
Proof.
  induction 1 as [user_id config w0 self w Hinit
                 |self w query out self' w' _ IH Hrun
                 |self w self' w' _ IH Hnew
                 |self w out w' _ IH Hclear].
  - apply init_returned in Hinit
      as (prompt & llm_config & _ & _ & _ & _ & -> & ->).
    split; simpl.
    + unfold LangGraph.thread_id_of.
      rewrite lookup_insert_ne, lookup_singleton_eq by done.
      by rewrite lookup_singleton_eq.
    + exists (uuids w0). split; [lia|done].
    + intros tid [? Hl]. by rewrite lookup_empty in Hl.
  - destruct IH as [Hthread Hdrawn Hmem].
    destruct (Z.ltb_spec (LangGraph.recursion_limit_of (_config self)) 1).
    + rewrite (run_rejected _ _ _ _ Hthread) in Hrun by done.
      injection Hrun as <- <- <-. by split.
    + rewrite (run_unfold _ _ _ _ Hthread) in Hrun by done.
      cbv zeta in Hrun.
      destruct (loop_extends self [] (Z.to_nat (LangGraph.recursion_limit_of (_config self))) (Some agent) (seeded self query) w)
        as (_ & _ & Huu); [apply prefix_nil|].
      set (r := LangGraph.loop (_setup_graph C self)
                  (Z.to_nat (LangGraph.recursion_limit_of (_config self)))
                  (Some agent) (seeded self query) w) in *.
      injection Hrun as <- <- <-. split; simpl.
      * done.
      * rewrite Huu. done.
      * intros tid His. rewrite Huu.
        destruct (decide (tid = _thread_id self)) as [->|Hne]; [done|].
        rewrite lookup_insert_ne in His by done. by apply Hmem.
  - destruct IH as [Hthread (k & Hk & Hdrawn) Hmem].
    unfold start_new_conversation in Hnew. simpl in Hnew.
    injection Hnew as <- <-. split; simpl.
    + unfold LangGraph.thread_id_of. rewrite lookup_singleton_eq.
      by rewrite lookup_singleton_eq.
    + exists (uuids w). split; [lia|done].
    + intros tid His. destruct (Hmem tid His) as (k' & ? & ?).
      exists k'. split; [lia|done].
  - destruct IH as [Hthread Hdrawn Hmem].
    unfold clear_memory in Hclear.
    destruct (mem0_delete_all C (lt_mem w) (_user_id self)) as [o s'].
    injection Hclear as <- <-. by split.
Qed.
End TurnFacts.

(* ===================================================================== *)
(** ** Tool resolution *)
(* ===================================================================== *)

Section ToolResolution.
Context {Store : Type} (C : Collaborators Store).

Abbreviation Bot := (AgenticChatBot Store).
Abbreviation World := (Env Store).

(** C4.  A tool call that names no registered tool is answered by the
    tool-result message with the content "Tool doesn't exist!" and the
    identifier of the call: the coroutine returns it, whatever the state of
    the memory service, and [gather] returns normally with that message
    at the position of the call. *)
Theorem unknown_tool_is_answered (self : Bot) (tool_calls : list ToolCall)
    (w : World) (i : nat) (tool_call : ToolCall) :
  tool_calls !! i = Some tool_call →
  _tools_map self !! tc_name tool_call = None →
  (∀ s, invoke_tool self tool_call s =
          (Returned (ToolMessage (tc_id tool_call) "Tool doesn't exist!"),
           tool_call, s)) ∧
  ∃ tool_messages tool_calls' w',
    gather C self tool_calls w = (Returned tool_messages, tool_calls', w') ∧
    tool_messages !! i =
      Some (ToolMessage (tc_id tool_call) "Tool doesn't exist!").
Proof.
  intros Hi Hnone. split.
  - intros s. by apply invoke_tool_unregistered.
  - destruct (gather_spec C self tool_calls w)
      as (tool_messages & w' & Hg & Hall & _).
    exists tool_messages, (injected self <$> tool_calls), w'.
    split; [done|].
    destruct (Forall2_lookup_l _ _ _ _ _ Hall Hi) as (m & Hm & s & Hs).
    rewrite invoke_tool_unregistered in Hs by done. simpl in Hs.
    congruence.
Qed.

(** C5.  A tool invocation that raises is turned into the tool-result
    message "Error: <message>" of its call, in whatever state of the memory
    service it raises, and the tool-execution step returns normally with
    one message per call: at the position of each registered call stands
    the result of its invocation, or its error. *)
Theorem tool_failure_becomes_error_message (self : Bot)
    (channel : list Message) (text : string) (tool_calls : list ToolCall)
    (w : World) :
  (∀ tool_call tool_fn s e s',
     _tools_map self !! tc_name tool_call = Some tool_fn →
     ainvoke tool_fn (<["user_id" := _user_id self]> (tc_args tool_call)) s
       = (Raised e, s') →
     (invoke_tool self tool_call s).1.1 =
       Returned (ToolMessage (tc_id tool_call) ("Error: " +:+ py_str e))) ∧
  ∃ tool_messages channel' w',
    _execute_tools C self {| messages := channel ++ [AIMessage text tool_calls] |} w
      = (Returned tool_messages, channel', w') ∧
    length tool_messages = length tool_calls ∧
    ∀ i tool_call tool_fn,
      tool_calls !! i = Some tool_call →
      _tools_map self !! tc_name tool_call = Some tool_fn →
      ∃ s,
        match (ainvoke tool_fn
                 (<["user_id" := _user_id self]> (tc_args tool_call)) s).1 with
        | Raised e =>
            tool_messages !! i =
              Some (ToolMessage (tc_id tool_call) ("Error: " +:+ py_str e))
        | Returned res =>
            tool_messages !! i = Some (ToolMessage (tc_id tool_call) res)
        end.
Proof.
  split.
  - intros tc tool_fn s e s' Hreg Hraise.
    rewrite (invoke_tool_registered _ _ _ _ Hreg). simpl. by rewrite Hraise.
  - destruct (execute_tools_spec C self channel text tool_calls w)
      as (tool_messages & w' & Hex & Hall & _).
    exists tool_messages, (channel ++ [AIMessage text (injected self <$> tool_calls)]), w'.
    split; [done|]. split; [symmetry; by eapply Forall2_length|].
    intros i tc tool_fn Hi Hreg.
    destruct (Forall2_lookup_l _ _ _ _ _ Hall Hi) as (m & Hm & s & Hs).
    exists s. rewrite (invoke_tool_registered _ _ _ _ Hreg) in Hs.
    simpl in Hs. injection Hs as <-.
    by destruct (ainvoke tool_fn _ s) as [[res|e] s'].
Qed.


(** C9, as the code has it.  The tool-execution step changes the tool
    calls of the assistant message in place, and only those: a call to a
    registered tool gets the session's user identifier under "user_id" in
    its arguments, a call that names no registered tool is left as it
    was. *)
Theorem user_id_injected_for_registered_tools (self : Bot)
    (channel : list Message) (text : string) (tool_calls : list ToolCall)
    (w : World) :
  ∃ tool_calls',
    (_execute_tools C self {| messages := channel ++ [AIMessage text tool_calls] |} w).1.2
      = channel ++ [AIMessage text tool_calls'] ∧
    length tool_calls' = length tool_calls ∧
    ∀ i tool_call,
      tool_calls !! i = Some tool_call →
      match _tools_map self !! tc_name tool_call with
      | Some _ =>
          tool_calls' !! i =
            Some {| tc_name := tc_name tool_call;
                    tc_args := <["user_id" := _user_id self]> (tc_args tool_call);
                    tc_id := tc_id tool_call |}
      | None => tool_calls' !! i = Some tool_call
      end.
Proof.
  destruct (execute_tools_spec C self channel text tool_calls w)
    as (tool_messages & w' & -> & _).
  exists (injected self <$> tool_calls). split; [done|].
  split; [by rewrite length_fmap|].
  intros i tc Hi. rewrite list_lookup_fmap, Hi. simpl. unfold injected.
  by destruct (_tools_map self !! tc_name tc).
Qed.
End ToolResolution.

(** A call to the unregistered "lookup_weather", third of three calls. *)
Lemma unknown_tool_is_answered_witness :
  (∀ s, invoke_tool (Demo.session None None) Demo.weather s =
          (Returned (ToolMessage "call_3" "Tool doesn't exist!"),
           Demo.weather, s)) ∧
  ∃ tool_messages tool_calls' w',
    gather (Demo.collaborators Demo.assistant_with_tools)
      (Demo.session None None) [Demo.remember; Demo.recall; Demo.weather]
      Demo.world1 = (Returned tool_messages, tool_calls', w') ∧
    tool_messages !! 2%nat =
      Some (ToolMessage "call_3" "Tool doesn't exist!").
Proof.
  apply (unknown_tool_is_answered
           (Demo.collaborators Demo.assistant_with_tools)
           (Demo.session None None)
           [Demo.remember; Demo.recall; Demo.weather] Demo.world1 2 Demo.weather);
    reflexivity.
Defined.

(** C9, as stated, fails: the call to the unregistered "lookup_weather" is
    resolved into its tool-result message, and the assistant message that
    carries it is as before, with no "user_id" among the arguments. *)
Lemma unregistered_call_is_left_unchanged :
  let C := Demo.collaborators Demo.assistant_with_tools in
  let self := Demo.session None None in
  let state := {| messages := [HumanMessage "hi"; AIMessage "" [Demo.weather]] |} in
  let r := _execute_tools C self state Demo.world1 in
  r.1.1 = Returned [ToolMessage "call_3" "Tool doesn't exist!"] ∧
  r.1.2 = messages state ∧
  tc_args Demo.weather !! "user_id" = None ∧
  r.1.2 ≠ [HumanMessage "hi";
           AIMessage ""
             [{| tc_name := "lookup_weather";
                 tc_args := <["user_id" := "ann"]> (tc_args Demo.weather);
                 tc_id := "call_3" |}]].
Proof.
  cbv zeta. split_and!; [reflexivity..|].
  intros H. apply (f_equal (λ ms, match ms with
                                   | [_; AIMessage _ [tc]] => tc_args tc !! "user_id"
                                   | _ => None
                                   end)) in H.
  vm_compute in H. discriminate.
Qed.

(* ===================================================================== *)
(** ** The session *)
(* ===================================================================== *)

Section Session.
Context {Store : Type} (C : Collaborators Store).

Abbreviation Bot := (AgenticChatBot Store).
Abbreviation World := (Env Store).


(** C7.  A turn starts from the persisted sequence of the current thread
    with the user's message appended, and from the system prompt followed
    by the user's message when the thread has no persisted state, which is
    the case after [start_new_conversation]; the model is first called on
    that sequence (trimmed when it is over the context), and what the turn
    persists begins with it. *)
Theorem run_starts_from_seed (self : Bot) (w : World) (query : string) :
  Inj (=) (=) (uuid4 C) →
  reachable C self w →
  (1 ≤ LangGraph.recursion_limit_of (_config self))%Z →
  let r := run C self query w in
  let n := start_new_conversation C self w in
  seeded self query =
    match _memory self !! _thread_id self with
    | None => [SystemMessage (_system_prompt self); HumanMessage query]
    | Some persisted => persisted ++ [HumanMessage query]
    end ∧
  llm_log r.2 !! length (llm_log w) = Some (llm_input C self (seeded self query)) ∧
  (∃ appended,
     _memory r.1.2 !! _thread_id self = Some (seeded self query ++ appended)) ∧
  _memory n.1 !! _thread_id n.1 = None ∧
  seeded n.1 query = [SystemMessage (_system_prompt self); HumanMessage query].
Proof.
  intros Hinj Hreach Hlimit.
  destruct (session_inv_reachable C self w Hreach) as [Hthread _ Hmem].
  cbv zeta.
  assert (Hfresh : _memory self !! uuid4 C (uuids w) = None).
  { destruct (_memory self !! uuid4 C (uuids w)) eqn:Hl; [|done].
    destruct (Hmem (uuid4 C (uuids w))) as (k & Hk & Heq); [by eexists|].
    apply Hinj in Heq. lia. }
  rewrite (run_unfold C self query w _ Hthread Hlimit). cbv zeta.
  split_and!.
  - unfold seeded, LangGraph.get. by rewrite Hthread.
  - apply loop_first_call. lia.
  - destruct (loop_extends C self (seeded self query)
                (Z.to_nat (LangGraph.recursion_limit_of (_config self)))
                (Some agent) (seeded self query) w) as ([appended Happ] & _).
    { done. }
    exists appended. cbn [fst snd set_memory _memory].
    rewrite lookup_insert_eq. by rewrite Happ.
  - done.
  - unfold seeded, LangGraph.get, start_new_conversation. simpl.
    unfold LangGraph.thread_id_of. rewrite lookup_singleton_eq. simpl.
    rewrite lookup_singleton_eq. simpl. by rewrite Hfresh.
Qed.

(** C10.  After [start_new_conversation] the invocation config is the
    dict with the new thread identifier and nothing else: it has no
    "recursion_limit", so that the limit the next turn runs under is the
    library's default and not the one the session was built with, and two
    sessions built from configs that differ in their recursion limit only
    are the same session from then on. *)
Theorem start_new_conversation_drops_recursion_limit (self : Bot) (w : World) :
  let n := start_new_conversation C self w in
  _thread_id n.1 = uuid4 C (uuids w) ∧
  _config n.1 = {[ "configurable" := CDict {[ "thread_id" := _thread_id n.1 ]} ]} ∧
  _config n.1 !! "recursion_limit" = None ∧
  LangGraph.recursion_limit_of (_config n.1) = LangGraph.DEFAULT_RECURSION_LIMIT ∧
  (∀ user_id prompt llm_value limit limit' w0,
     let built l :=
       __init__ C user_id
         {| system_prompt := prompt; llm := llm_value; recursion_limit := l |}
         w0 in
     match built limit, built limit' with
     | (Returned b, w1), (Returned b', w1') =>
         start_new_conversation C b w1 = start_new_conversation C b' w1'
     | (Raised e, w1), (Raised e', w1') => e = e' ∧ w1 = w1'
     | _, _ => False
     end).
Proof.
  cbv zeta. split_and!; try done.
  intros user_id prompt llm_value limit limit' w0.
  unfold __init__, _setup_tools. simpl.
  destruct prompt as [prompt|]; [|done].
  destruct llm_value as [[llm_config|type_name]|]; [|done..].
  destruct (init_chat_model C _ _) as [[]|e]; [|done]. simpl.
  destruct (bind_tools C _) as [[]|e]; done.
Qed.
End Session.



Lemma demo_uuid4_inj llm : Inj (=) (=) (uuid4 (Demo.collaborators llm)).
Proof.
  intros n m H. simpl in H.
  apply (inj pretty). by apply (inj (String.app "thread-")).
Qed.

Lemma demo_session_reachable llm max_context recursion_limit :
  reachable (Demo.collaborators llm)
    (Demo.session max_context recursion_limit) Demo.world1.
Proof.
  apply (reach_init _ "ann" (Demo.config max_context recursion_limit) Demo.world).
  reflexivity.
Qed.

(** The fresh session, built with the default recursion limit. *)
Lemma run_starts_from_seed_witness :
  let C := Demo.collaborators Demo.greeter in
  let self := Demo.session None None in
  let r := run C self "hi" Demo.world1 in
  let n := start_new_conversation C self Demo.world1 in
  seeded self "hi" =
    match _memory self !! _thread_id self with
    | None => [SystemMessage (_system_prompt self); HumanMessage "hi"]
    | Some persisted => persisted ++ [HumanMessage "hi"]
    end ∧
  llm_log r.2 !! length (llm_log Demo.world1)
    = Some (llm_input C self (seeded self "hi")) ∧
  (∃ appended,
     _memory r.1.2 !! _thread_id self = Some (seeded self "hi" ++ appended)) ∧
  _memory n.1 !! _thread_id n.1 = None ∧
  seeded n.1 "hi" = [SystemMessage (_system_prompt self); HumanMessage "hi"].
Proof.
  apply (run_starts_from_seed (Demo.collaborators Demo.greeter)
           (Demo.session None None) Demo.world1 "hi").
  - apply demo_uuid4_inj.
  - apply demo_session_reachable.
  - vm_compute. discriminate.
Defined.

(** C8 on a session built with [recursion_limit: 2] and a model that asks
    for a tool in its first three answers: the first turn fails at the
    ceiling of 2; the same turn after [start_new_conversation] runs its seven
    supersteps, four of them calls of the model, and returns the answer. *)
Theorem configured_ceiling_is_lost_after_reset :
  let C := Demo.collaborators Demo.three_rounds in
  let self := Demo.session None (Some 2%Z) in
  let n := start_new_conversation C self Demo.world1 in
  let r := run C n.1 "hi" n.2 in
  __init__ C "ann" (Demo.config None (Some 2%Z)) Demo.world
    = (Returned self, Demo.world1) ∧
  (run C self "hi" Demo.world1).1.1 = Raised (GraphRecursionError 2) ∧
  LangGraph.recursion_limit_of (_config n.1) = 25%Z ∧
  length (llm_log r.2) = 4%nat ∧
  (∃ response, r.1.1 = Returned response ∧ bot_message response = Returned "Done.").
Proof.
  cbv zeta. split_and!; [reflexivity|vm_compute; reflexivity..|].
  eexists. split; vm_compute; reflexivity.
Qed.

(** A session at the terminal: a new conversation, a turn, and the exit;
    what is typed after "/exit" is not read. *)
Example chat_loop_new_turn_exit :
  (chat_loop (Demo.collaborators Demo.greeter) ["/NEW"; "hi"; "/exit"; "more"]
     (Demo.session None None) Demo.world1 SessionStarted).1.1
  = Turn "hi" "Hello!".
Proof. vm_compute. reflexivity. Qed.

(* ===================================================================== *)
(** ** Trimming before the model is called *)
(* ===================================================================== *)

Section Trimming.
Context {Store : Type} (C : Collaborators Store).

Abbreviation Bot := (AgenticChatBot Store).
Abbreviation World := (Env Store).

Lemma pop_until_type_last types l m :
  last (pop_until_type types l) = Some m → _is_message_type m types = true.
Proof.
  induction l as [|x l IH] using rev_ind; [done|].
  rewrite pop_until_type_snoc.
  destruct (_is_message_type x types) eqn:Hx; [|done].
  rewrite last_snoc. congruence.
Qed.

Lemma pop_until_type_prefix types l : pop_until_type types l `prefix_of` l.
Proof. rewrite pop_until_type_back_off. apply prefix_take. Qed.

Lemma split_system_app l : (split_system l).1 ++ (split_system l).2 = l.
Proof. by destruct l as [|[]]. Qed.

Lemma last_suffix (window l : list Message) :
  window ≠ [] → window `suffix_of` l → last window = last l.
Proof.
  intros Hne [pre ->]. rewrite last_app.
  destruct (last window) eqn:Hl; [done|]. by apply last_None in Hl.
Qed.

Lemma starts_on_human_nonempty window : starts_on_human window → window ≠ [].
Proof. by intros (c & tl & ->). Qed.

Lemma suffixes_spec (rest window : list Message) :
  window ∈ suffixes rest ↔ window `suffix_of` rest.
Proof.
  induction rest as [|m rest IH]; simpl.
  - rewrite list_elem_of_singleton. split; [by intros ->|].
    apply suffix_nil_inv.
  - rewrite elem_of_cons, IH. split.
    + intros [->|Hs]; [done|]. by apply suffix_cons_r.
    + intros Hs. destruct window as [|x window].
      * right. apply suffix_nil.
      * apply suffix_cons_inv in Hs as [->|Hs]; auto.
Qed.

Lemma has_window_spec counter budget rest :
  has_window counter budget rest = true ↔
  ∃ window, valid_window counter budget rest window.
Proof.
  unfold has_window. rewrite existsb_exists. split.
  - intros (window & Hin & Hok). exists window.
    apply list_elem_of_In, suffixes_spec in Hin.
    unfold is_window in Hok. destruct window as [|[] tl]; try done.
    apply bool_decide_eq_true in Hok. split; [done| |done]. by eexists _, _.
  - intros (window & [Hs (c & tl & ->) Hfit]). exists (HumanMessage c :: tl).
    split; [by apply list_elem_of_In, suffixes_spec|].
    simpl. by apply bool_decide_eq_true.
Qed.

Lemma has_window_false counter budget rest :
  has_window counter budget rest = false →
  ∀ window, ¬ valid_window counter budget rest window.
Proof.
  intros Hfalse window Hvalid.
  assert (has_window counter budget rest = true)
    by (apply has_window_spec; eauto).
  congruence.
Qed.

(** What [_trim_messages] leaves in the node's state. *)
Lemma trim_messages_spec (self : Bot) (channel : list Message) (limit : Z) :
  max_context (_llm_config self) = Some limit →
  let kept := pop_until_type [human; assistant; tool] channel in
  let sys := (split_system kept).1 in
  let rest := (split_system kept).2 in
  let budget := window_budget (count_tokens_approximately C) limit sys in
  ∃ window,
    messages (_trim_messages C self {| messages := channel |}) = sys ++ window ∧
    window `suffix_of` rest ∧
    (window = [] ∨ valid_window (count_tokens_approximately C) budget rest window) ∧
    (∀ window', valid_window (count_tokens_approximately C) budget rest window' →
                (length window' ≤ length window)%nat).
Proof.
  intros Hmax. unfold _trim_messages, trim_messages. rewrite Hmax. simpl.
  apply (last_max_tokens_spec (approx_tokens C)).
Qed.

Lemma executor_over_context (self : Bot) (channel : list Message) (w : World)
    (limit : Z) :
  max_context (_llm_config self) = Some limit →
  limit ≠ 0%Z →
  (limit < _count_tokens C channel)%Z →
  llm_input C self channel =
    messages (_trim_messages C self {| messages := channel |}).
Proof.
  intros Hmax Hne Hover. unfold llm_input. rewrite Hmax.
  rewrite (proj2 (Z.eqb_neq _ _) Hne), (proj2 (Z.ltb_lt _ _) Hover). done.
Qed.

(** C2, as the code has it.  When the sequence is over the context and no
    suffix of it that starts on a human message is within the budget, the
    trimming does not fall back on the untrimmed sequence: it leaves the
    leading system message alone (nothing, when the sequence starts on no
    system message), and the model is called on that.  The node returns
    normally, and the channel, which is what gets persisted, is not
    trimmed. *)
Theorem trimming_without_window_keeps_system_only (self : Bot)
    (channel : list Message) (w : World) (limit : Z) :
  max_context (_llm_config self) = Some limit →
  limit ≠ 0%Z →
  (limit < _count_tokens C channel)%Z →
  let kept := pop_until_type [human; assistant; tool] channel in
  let sys := (split_system kept).1 in
  let rest := (split_system kept).2 in
  let budget := window_budget (count_tokens_approximately C) limit sys in
  (∀ window, ¬ valid_window (count_tokens_approximately C) budget rest window) →
  messages (_trim_messages C self {| messages := channel |}) = sys ∧
  _executor C self {| messages := channel |} w =
    (Returned [AIMessage (llm_invoke C (length (llm_log w)) sys).1
                         (llm_invoke C (length (llm_log w)) sys).2],
     channel, log_llm_call sys w).
Proof.
  intros Hmax Hne Hover kept sys rest budget Hnone.
  destruct (trim_messages_spec self channel limit Hmax)
    as (window & Htrim & _ & [->|Hvalid] & _); last first.
  { by apply Hnone in Hvalid. }
  rewrite app_nil_r in Htrim. split; [done|].
  rewrite executor_spec, (executor_over_context self channel w limit) by done.
  by rewrite Htrim.
Qed.

(** C3, as the code has it.  When the token count of the sequence, as the
    model's tokenizer counts its buffer string, is over a configured
    non-zero context, and some suffix that starts on a human message is
    within the budget by the approximate count, the [agent] node calls the
    model on the trimmed sequence: the leading system message, then the
    longest such suffix, which ends on a human, assistant or tool
    message.  The channel is not trimmed. *)
Theorem executor_trims_to_longest_window (self : Bot)
    (channel : list Message) (w : World) (limit : Z) (window0 : list Message) :
  max_context (_llm_config self) = Some limit →
  limit ≠ 0%Z →
  (limit < _count_tokens C channel)%Z →
  let kept := pop_until_type [human; assistant; tool] channel in
  let sys := (split_system kept).1 in
  let rest := (split_system kept).2 in
  let budget := window_budget (count_tokens_approximately C) limit sys in
  valid_window (count_tokens_approximately C) budget rest window0 →
  ∃ window,
    _executor C self {| messages := channel |} w =
      (Returned [AIMessage (llm_invoke C (length (llm_log w)) (sys ++ window)).1
                           (llm_invoke C (length (llm_log w)) (sys ++ window)).2],
       channel, log_llm_call (sys ++ window) w) ∧
    valid_window (count_tokens_approximately C) budget rest window ∧
    (∀ window', valid_window (count_tokens_approximately C) budget rest window' →
                (length window' ≤ length window)%nat) ∧
    ends_on_human_assistant_tool window ∧
    (∀ c tail, channel = SystemMessage c :: tail → sys = [SystemMessage c]).
Proof.
  intros Hmax Hne Hover kept sys rest budget Hvalid0.
  destruct (trim_messages_spec self channel limit Hmax)
    as (window & Htrim & Hsuffix & Hvalid & Hlongest).
  fold kept sys rest budget in Htrim, Hsuffix, Hvalid, Hlongest.
  assert (Hne0 : window0 ≠ [])
    by (apply starts_on_human_nonempty, Hvalid0).
  assert (Hnonempty : window ≠ []).
  { intros ->. specialize (Hlongest _ Hvalid0). simpl in Hlongest.
    destruct window0; [done|simpl in Hlongest; lia]. }
  destruct Hvalid as [->|Hvalid]; [done|].
  exists window. split_and!; try done.
  - rewrite executor_spec, (executor_over_context self channel w limit) by done.
    by rewrite Htrim.
  - assert (Hrest : rest `suffix_of` kept).
    { exists sys. symmetry. apply split_system_app. }
    assert (Hlast : last window = last kept).
    { apply last_suffix; [done|]. by etrans. }
    destruct (last kept) as [m|] eqn:Hm.
    + exists m. split; [done|].
      apply pop_until_type_last in Hm.
      unfold _is_message_type in Hm. by apply bool_decide_eq_true in Hm.
    + apply last_None in Hlast. done.
  - intros c tail ->.
    destruct (pop_until_type_prefix [human; assistant; tool] (SystemMessage c :: tail))
      as [dropped Hkept].
    fold kept in Hkept. subst sys rest.
    destruct kept as [|k kept'].
    + simpl in Hsuffix. apply suffix_nil_inv in Hsuffix. done.
    + injection Hkept as <- _. done.
Qed.
End Trimming.

(** A sequence of 29 approximate tokens against a context of 10, of which
    the system message takes 9. *)
Lemma trimming_without_window_keeps_system_only_witness :
  let C := Demo.collaborators Demo.greeter in
  let self := Demo.session (Some 10%Z) None in
  let channel := [SystemMessage "You are helpful."; HumanMessage Demo.long_query] in
  let sys := [SystemMessage "You are helpful."] in
  messages (_trim_messages C self {| messages := channel |}) = sys ∧
  _executor C self {| messages := channel |} Demo.world1 =
    (Returned [AIMessage (llm_invoke C (length (llm_log Demo.world1)) sys).1
                         (llm_invoke C (length (llm_log Demo.world1)) sys).2],
     channel, log_llm_call sys Demo.world1).
Proof.
  apply (trimming_without_window_keeps_system_only
           (Demo.collaborators Demo.greeter) (Demo.session (Some 10%Z) None)
           [SystemMessage "You are helpful."; HumanMessage Demo.long_query]
           Demo.world1 10%Z).
  - reflexivity.
  - discriminate.
  - vm_compute. reflexivity.
  - apply has_window_false. vm_compute. reflexivity.
Defined.

(** C2, as stated, fails: no suffix of this sequence that starts on a human
    message is within the 10 tokens, and the trimming leaves the system
    message alone, not the sequence. *)
Lemma trimming_without_window_drops_messages :
  let C := Demo.collaborators Demo.greeter in
  let self := Demo.session (Some 10%Z) None in
  let channel := [SystemMessage "You are helpful."; HumanMessage Demo.long_query] in
  (∀ window, ¬ valid_window (count_tokens_approximately C) 10 channel window) ∧
  messages (_trim_messages C self {| messages := channel |})
    = [SystemMessage "You are helpful."] ∧
  messages (_trim_messages C self {| messages := channel |}) ≠ channel.
Proof.
  cbv zeta. split_and!.
  - apply has_window_false. vm_compute. reflexivity.
  - vm_compute. reflexivity.
  - vm_compute. discriminate.
Qed.

(** A history of 55 approximate tokens against a context of 30: the window
    is the latest human message. *)
Lemma executor_trims_to_longest_window_witness :
  let C := Demo.collaborators Demo.greeter in
  let self := Demo.session (Some 30%Z) None in
  let sys := [SystemMessage "You are helpful."] in
  let rest := drop 1 Demo.history in
  let budget := 21%Z in
  ∃ window,
    _executor C self {| messages := Demo.history |} Demo.world1 =
      (Returned [AIMessage (llm_invoke C (length (llm_log Demo.world1)) (sys ++ window)).1
                           (llm_invoke C (length (llm_log Demo.world1)) (sys ++ window)).2],
       Demo.history, log_llm_call (sys ++ window) Demo.world1) ∧
    valid_window (count_tokens_approximately C) budget rest window ∧
    (∀ window', valid_window (count_tokens_approximately C) budget rest window' →
                (length window' ≤ length window)%nat) ∧
    ends_on_human_assistant_tool window ∧
    (∀ c tail, Demo.history = SystemMessage c :: tail → sys = [SystemMessage c]).
Proof.
  apply (executor_trims_to_longest_window
           (Demo.collaborators Demo.greeter) (Demo.session (Some 30%Z) None)
           Demo.history Demo.world1 30%Z [HumanMessage "thanks"]).
  - reflexivity.
  - discriminate.
  - vm_compute. reflexivity.
  - split.
    + by exists (take 4 (drop 1 Demo.history)).
    + by eexists _, _.
    + vm_compute. discriminate.
Defined.

(** C3, as stated, fails: the sequence is over the context of 10 by the
    approximate count and by the tokenizer's, and the model is called on the
    system message alone, which holds no window that starts on a human
    message. *)
Lemma trimmed_sequence_can_lack_a_window :
  let C := Demo.collaborators Demo.greeter in
  let self := Demo.session (Some 10%Z) None in
  let channel := [SystemMessage "You are helpful."; HumanMessage Demo.long_query] in
  let r := _executor C self {| messages := channel |} Demo.world1 in
  (10 < count_tokens_approximately C channel)%Z ∧
  (10 < _count_tokens C channel)%Z ∧
  llm_log r.2 = [[SystemMessage "You are helpful."]] ∧
  ¬ ∃ sys window,
      [SystemMessage "You are helpful."] = sys ++ window ∧ starts_on_human window.
Proof.
  cbv zeta. split_and!; [vm_compute; reflexivity..|].
  intros (sys & window & Heq & c & tl & ->).
  destruct sys as [|m [|m' sys]]; simplify_eq/=.
Qed.

(* ===================================================================== *)
(** ** More about the session *)
(* ===================================================================== *)

Section SessionExtras.
Context {Store : Type} (C : Collaborators Store).

Abbreviation Bot := (AgenticChatBot Store).
Abbreviation World := (Env Store).

(** X1.  The constructor returns a session exactly when the config has a
    "system_prompt" and an "llm" that is a mapping, the model of the
    mapping ("openai:gpt-4o" at temperature 0.7 when it names none) can be
    built, and the model takes the two tools.  The session is then the
    user's, on a newly drawn thread with nothing persisted, under the
    recursion limit of the config, 25 when the config has none.  A
    constructor that raises has drawn no identifier, unless it is the
    binding of the tools that failed. *)
Theorem constructor_returns_when_model_is_built (user_id : string)
    (config : Config) (w : World) :
  let built := __init__ C user_id config w in
  ((∃ self, built.1 = Returned self) ↔
   is_Some (system_prompt config) ∧
   ∃ llm_config,
     llm config = Some (LlmMapping llm_config) ∧
     init_chat_model C (default "openai:gpt-4o" (model llm_config))
       (default "0.7" (temperature llm_config)) = Returned () ∧
     bind_tools C ["add_update_memory"; "fetch_memory"] = Returned ()) ∧
  (∀ self, built.1 = Returned self →
     built.2 = (draw_uuid C w).2 ∧
     _user_id self = user_id ∧
     system_prompt config = Some (_system_prompt self) ∧
     llm config = Some (LlmMapping (_llm_config self)) ∧
     _thread_id self = uuid4 C (uuids w) ∧
     _memory self = ∅ ∧
     LangGraph.thread_id_of (_config self) = Some (uuid4 C (uuids w)) ∧
     LangGraph.recursion_limit_of (_config self)
       = default 25%Z (recursion_limit config)) ∧
  (∀ e, built.1 = Raised e →
     built.2 = w ∨
     built.2 = (draw_uuid C w).2 ∧
     bind_tools C ["add_update_memory"; "fetch_memory"] = Raised e).
Proof.
  cbv zeta. split_and!.
  - split.
    + intros [self Hself].
      destruct (__init__ C user_id config w) as [out w'] eqn:Hinit.
      simpl in Hself. subst out.
      apply init_returned in Hinit
        as (prompt & llm_config & Hp & Hl & Hm & Hb & _).
      split; [by rewrite Hp|]. by exists llm_config.
    + intros [[prompt Hp] (llm_config & Hl & Hm & Hb)].
      unfold __init__, _setup_tools. rewrite Hp, Hl, Hm. simpl.
      rewrite Hb. simpl. by eexists.
  - intros self Hself.
    destruct (__init__ C user_id config w) as [out w'] eqn:Hinit.
    simpl in Hself. subst out.
    apply init_returned in Hinit
      as (prompt & llm_config & Hp & Hl & _ & _ & -> & ->).
    split_and!; done.
  - intros e. unfold __init__, _setup_tools.
    destruct (system_prompt config) as [prompt|]; [|by left].
    destruct (llm config) as [[llm_config|type_name]|]; [|by left..].
    destruct (init_chat_model C _ _) as [[]|e']; [|by left]. simpl.
    destruct (bind_tools C _) as [[]|e'] eqn:Hb; simpl; [done|].
    intros [= ->]. by right.
Qed.

(** The public API leaves the registry, the user, the prompt and the
    model settings of a session as the constructor set them. *)
Lemma registry_reachable (self : Bot) (w : World) :
  reachable C self w →
  _tools_map self =
    <["fetch_memory" := fetch_memory C]>
      (<["add_update_memory" := add_update_memory C]> ∅).
Proof.
  induction 1 as [user_id config w0 self w Hinit
                 |self w query out self' w' _ IH Hrun
                 |self w self' w' _ IH Hnew
                 |self w out w' _ IH Hclear]; try done.
  - by apply init_returned in Hinit as (? & ? & _ & _ & _ & _ & _ & ->).
  - unfold run in Hrun.
    destruct (LangGraph.ainvoke _ _ _ _ _) as [[response memory'] w''].
    by injection Hrun as <- <- <-.
  - unfold start_new_conversation in Hnew. simpl in Hnew.
    by injection Hnew as <- <-.
Qed.

Lemma lookup_tool (self : Bot) (w : World) (name : string) :
  reachable C self w →
  _tools_map self !! name =
    if decide (name = "fetch_memory") then Some (fetch_memory C)
    else if decide (name = "add_update_memory") then Some (add_update_memory C)
    else None.
Proof.
  intros Hreach. rewrite (registry_reachable self w Hreach).
  destruct (decide (name = "fetch_memory")) as [->|Hf].
  { by rewrite lookup_insert_eq. }
  rewrite lookup_insert_ne by done.
  destruct (decide (name = "add_update_memory")) as [->|Ha].
  { by rewrite lookup_insert_eq. }
  by rewrite lookup_insert_ne, lookup_empty.
Qed.

(** X2.  In every session the program can get to, the tool registry holds
    the two tools of [utils/tools.py] under their names and nothing
    else. *)
Theorem registry_holds_the_two_tools (self : Bot) (w : World) (name : string) :
  reachable C self w →
  _tools_map self !! name =
    if decide (name = "fetch_memory") then Some (fetch_memory C)
    else if decide (name = "add_update_memory") then Some (add_update_memory C)
    else None.
Proof. apply lookup_tool. Qed.

(** *** Without a context limit the model sees the whole thread *)

Lemma llm_input_unlimited (self : Bot) channel :
  max_context (_llm_config self) = None ∨ max_context (_llm_config self) = Some 0%Z →
  llm_input C self channel = channel.
Proof. unfold llm_input. by intros [-> | ->]. Qed.

Lemma loop_inputs_are_prefixes (self : Bot) seed n0 steps :
  max_context (_llm_config self) = None ∨ max_context (_llm_config self) = Some 0%Z →
  ∀ task channel (w : World) base,
    match task with
    | Some execute_tools => ∃ text tcs, channel = base ++ [AIMessage text tcs]
    | _ => base = channel
    end →
    seed `prefix_of` base →
    (∀ k input, (n0 ≤ k)%nat → llm_log w !! k = Some input →
                seed `prefix_of` input ∧ input `prefix_of` base) →
    let r := LangGraph.loop (_setup_graph C self) steps task channel w in
    ∀ k input, (n0 ≤ k)%nat → llm_log r.2 !! k = Some input →
               seed `prefix_of` input ∧ input `prefix_of` r.1.2.
Proof.
  intros Hun. induction steps as [|steps IH];
    intros task channel w base Hbase Hseed Hlog.
  - simpl. intros k input Hk Hin. destruct (Hlog k input Hk Hin) as [H1 H2].
    split; [done|]. destruct task as [[|]|]; subst; try done.
    destruct Hbase as (text & tcs & ->). by apply prefix_app_r.
  - destruct task as [[|]|].
    + subst base. rewrite loop_agent, (llm_input_unlimited self channel Hun).
      cbv zeta.
      destruct (llm_invoke C (length (llm_log w)) channel) as [text tcs].
      cbn [fst snd].
      assert (Hlog' : ∀ k input, (n0 ≤ k)%nat →
                llm_log (log_llm_call channel w) !! k = Some input →
                seed `prefix_of` input ∧ input `prefix_of` channel).
      { intros k input Hk Hin. simpl in Hin.
        apply lookup_app_Some in Hin as [Hin|[_ Hin]]; [by eapply Hlog|].
        apply list_lookup_singleton_Some in Hin as [_ <-]. done. }
      destruct tcs as [|tc tcs].
      * apply (IH None _ _ (channel ++ [AIMessage text []])); [done| |].
        { by apply prefix_app_r. }
        intros k input Hk Hin. destruct (Hlog' k input Hk Hin).
        split; [done|]. by apply prefix_app_r.
      * apply (IH (Some execute_tools) _ _ channel); [eauto|done|done].
    + destruct Hbase as (text & tcs & ->).
      destruct (loop_execute_tools C self steps base text tcs w)
        as (tool_messages & w' & _ & _ & Hl & _ & ->).
      apply (IH (Some agent) _ _
               (base ++ [AIMessage text (injected self <$> tcs)] ++ tool_messages));
        [done| |].
      { by apply prefix_app_r. }
      rewrite Hl. intros k input Hk Hin. destruct (Hlog k input Hk Hin).
      split; [done|]. by apply prefix_app_r.
    + subst base. simpl. done.
Qed.

(** X3.  When the config sets no [max_context], or sets it to 0, nothing
    is ever trimmed: every call of the model in a turn is on a sequence
    that begins with the sequence the turn started from and that is a
    prefix of what the turn persists. *)
Theorem model_sees_whole_thread_without_limit (self : Bot) (query : string)
    (w : World) (tid : string) :
  LangGraph.thread_id_of (_config self) = Some tid →
  (1 ≤ LangGraph.recursion_limit_of (_config self))%Z →
  max_context (_llm_config self) = None ∨ max_context (_llm_config self) = Some 0%Z →
  let r := run C self query w in
  ∃ persisted,
    _memory r.1.2 !! tid = Some persisted ∧
    ∀ k input, (length (llm_log w) ≤ k)%nat → llm_log r.2 !! k = Some input →
      seeded self query `prefix_of` input ∧ input `prefix_of` persisted.
Proof.
  intros Htid Hlimit Hun. rewrite (run_unfold C self query w tid Htid Hlimit).
  cbv zeta. cbn [fst snd set_memory _memory]. eexists.
  split; [by rewrite lookup_insert_eq|].
  apply (loop_inputs_are_prefixes self (seeded self query) (length (llm_log w))
           _ Hun (Some agent) _ _ (seeded self query)); [done..|].
  intros k input Hk Hin. apply lookup_lt_Some in Hin. lia.
Qed.

(** *** The model calls of a turn *)

Lemma loop_calls_counted (self : Bot) steps :
  ∀ task channel (w : World),
    let r := LangGraph.loop (_setup_graph C self) steps task channel w in
    ∃ n, length (llm_log r.2) = (length (llm_log w) + n)%nat ∧
      match task with
      | Some agent =>
          (n ≤ (steps + 1) `div` 2)%nat ∧
          (r.1.1 = LangGraph.out_of_steps → n = ((steps + 1) `div` 2)%nat) ∧
          (0 < steps → 0 < n)%nat
      | Some execute_tools =>
          (n ≤ steps `div` 2)%nat ∧
          (r.1.1 = LangGraph.out_of_steps → n = (steps `div` 2)%nat)
      | None => n = 0%nat
      end.
Proof.
  induction steps as [|steps IH]; intros task channel w.
  - exists 0%nat. simpl. split; [lia|].
    destruct task as [[|]|]; simpl; repeat split; first [done|lia].
  - destruct task as [[|]|].
    + rewrite loop_agent. cbv zeta.
      set (input := llm_input C self channel).
      destruct (llm_invoke C (length (llm_log w)) input) as [text tcs].
      cbn [fst snd].
      edestruct (IH (match tcs with [] => None | _ => Some execute_tools end)
                   (channel ++ [AIMessage text tcs]) (log_llm_call input w))
        as (n & Hn & Hb).
      exists (S n). split.
      { rewrite Hn. simpl. rewrite length_app. simpl. lia. }
      assert (Hdiv : ((S steps + 1) `div` 2 = S (steps `div` 2))%nat).
      { replace (S steps + 1)%nat with (steps + 1 * 2)%nat by lia.
        rewrite Nat.div_add by lia. lia. }
      rewrite Hdiv. destruct tcs as [|tc tcs].
      * subst n. split_and!; [lia| |lia].
        intros Hout. destruct steps as [|steps']; [done|].
        simpl in Hout. done.
      * destruct Hb as [Hle Hout]. split_and!; [lia| |lia].
        intros Ho. rewrite Hout by done. done.
    + cbn [LangGraph.loop]. cbn [LangGraph.node_fn _setup_graph].
      pose proof (execute_tools_log C self {| messages := channel |} w) as Hlog.
      destruct (_execute_tools C self {| messages := channel |} w)
        as [[[update|e] channel_after] w']; simpl in Hlog.
      * cbn [LangGraph.next_node _setup_graph]. cbv zeta.
        edestruct (IH (Some agent) (channel_after ++ update) w')
          as (n & Hn & Hle & Hout & _).
        exists n. rewrite Hn, Hlog. split; [done|].
        assert (Hdiv : (S steps `div` 2 = (steps + 1) `div` 2)%nat)
          by (f_equal; lia).
        rewrite Hdiv. done.
      * exists 0%nat. simpl. rewrite Hlog. split; [lia|]. split; [lia|done].
    + exists 0%nat. simpl. split; [lia|done].
Qed.

(** X4.  The graph runs at most [recursion_limit] nodes, every other one
    of them the [agent] node: a turn calls the model at least once and at
    most [(recursion_limit + 1) // 2] times, 13 times under the limit of
    25, and a turn that fails on the recursion limit has made exactly that
    many calls. *)
Theorem turn_calls_are_bounded (self : Bot) (query : string) (w : World)
    (tid : string) :
  LangGraph.thread_id_of (_config self) = Some tid →
  (1 ≤ LangGraph.recursion_limit_of (_config self))%Z →
  let limit := Z.to_nat (LangGraph.recursion_limit_of (_config self)) in
  let r := run C self query w in
  ∃ calls,
    length (llm_log r.2) = (length (llm_log w) + calls)%nat ∧
    (1 ≤ calls ≤ (limit + 1) `div` 2)%nat ∧
    (r.1.1 = Raised (GraphRecursionError
                       (LangGraph.recursion_limit_of (_config self))) →
     calls = ((limit + 1) `div` 2)%nat).
Proof.
  intros Htid Hlimit. rewrite (run_unfold C self query w tid Htid Hlimit).
  cbv zeta. cbn [fst snd].
  destruct (loop_calls_counted self
              (Z.to_nat (LangGraph.recursion_limit_of (_config self)))
              (Some agent) (seeded self query) w) as (n & Hn & Hle & Hout & Hpos).
  exists n. split; [done|]. split; [lia|].
  intros He. apply Hout.
  destruct (LangGraph.loop (_setup_graph C self) _ _ _ _).1.1 eqn:Hs; try done.
  exfalso.
  pose proof (loop_turn C self (length (llm_log w))
                (Z.to_nat (LangGraph.recursion_limit_of (_config self)))
                (Some agent) (seeded self query) w) as Hturn.
  cbv zeta in Hturn. rewrite Hs in Hturn. apply Hturn.
  intros k inp Hk Hin. apply lookup_lt_Some in Hin. lia.
Qed.

(** *** What is persisted *)

Lemma run_other_threads (self : Bot) (query : string) (w : World) tid tid' :
  LangGraph.thread_id_of (_config self) = Some tid →
  tid' ≠ tid →
  _memory (run C self query w).1.2 !! tid' = _memory self !! tid'.
Proof.
  intros Htid Hne.
  destruct (Z.ltb_spec (LangGraph.recursion_limit_of (_config self)) 1).
  - by rewrite (run_rejected C self query w tid Htid).
  - rewrite (run_unfold C self query w tid Htid) by done.
    cbv zeta. cbn [fst snd set_memory _memory]. by rewrite lookup_insert_ne.
Qed.

(** X5.  A turn persists under the thread identifier of the session and
    touches no other thread; [start_new_conversation] deletes nothing, and
    the turns that follow it leave the sequence of the old thread as it
    was. *)
Theorem old_threads_are_kept (self : Bot) (w : World) :
  Inj (=) (=) (uuid4 C) →
  reachable C self w →
  let n := start_new_conversation C self w in
  (∀ query tid, tid ≠ _thread_id self →
     _memory (run C self query w).1.2 !! tid = _memory self !! tid) ∧
  _memory n.1 = _memory self ∧
  _thread_id n.1 ≠ _thread_id self ∧
  (∀ query,
     _memory (run C n.1 query n.2).1.2 !! _thread_id self
       = _memory self !! _thread_id self).
Proof.
  intros Hinj Hreach.
  destruct (session_inv_reachable C self w Hreach) as [Hthread (k & Hk & Hdrawn) _].
  cbv zeta.
  assert (Hnew : uuid4 C (uuids w) ≠ _thread_id self).
  { rewrite Hdrawn. intros Heq. apply Hinj in Heq. lia. }
  split_and!.
  - intros query tid Hne. by apply (run_other_threads self query w (_thread_id self)).
  - done.
  - done.
  - intros query.
    rewrite (run_other_threads _ query _ (uuid4 C (uuids w))); [done| |by symmetry].
    unfold start_new_conversation, LangGraph.thread_id_of. simpl.
    rewrite lookup_singleton_eq. by rewrite lookup_singleton_eq.
Qed.

Lemma system_prompt_reachable_step (self : Bot) query (w : World) :
  _system_prompt (run C self query w).1.2 = _system_prompt self.
Proof.
  unfold run. by destruct (LangGraph.ainvoke _ _ _ _ _) as [[? ?] ?].
Qed.

(** X6.  In every session the program can get to, each persisted sequence
    begins with the system message of the session's prompt followed by a
    human message. *)
Theorem persisted_begins_with_prompt (self : Bot) (w : World) (tid : string)
    (persisted : list Message) :
  reachable C self w →
  _memory self !! tid = Some persisted →
  ∃ query rest,
    persisted = SystemMessage (_system_prompt self) :: HumanMessage query :: rest.
Proof.
  intros Hreach. revert tid persisted.
  induction Hreach as [user_id config w0 self w Hinit
                      |self w query out self' w' Hreach IH Hrun
                      |self w self' w' _ IH Hnew
                      |self w out w' _ IH Hclear]; intros tid persisted Hmem.
  - apply init_returned in Hinit as (? & ? & _ & _ & _ & _ & _ & ->).
    simpl in Hmem. by rewrite lookup_empty in Hmem.
  - destruct (session_inv_reachable C self w Hreach) as [Hthread _ _].
    assert (Hself : self' = (run C self query w).1.2) by by rewrite Hrun.
    assert (Hprompt : _system_prompt self' = _system_prompt self)
      by (rewrite Hself; apply system_prompt_reachable_step).
    rewrite Hprompt.
    destruct (decide (tid = _thread_id self)) as [->|Hne]; last first.
    { rewrite Hself, (run_other_threads self query w (_thread_id self)) in Hmem
        by done.
      by eapply IH. }
    destruct (Z.ltb_spec (LangGraph.recursion_limit_of (_config self)) 1).
    { rewrite Hself, (run_rejected C self query w _ Hthread) in Hmem by done.
      by eapply IH. }
    rewrite Hself, (run_unfold C self query w _ Hthread) in Hmem by done.
    cbv zeta in Hmem. cbn [fst snd set_memory _memory] in Hmem.
    rewrite lookup_insert_eq in Hmem.
    destruct (loop_extends C self (seeded self query)
                (Z.to_nat (LangGraph.recursion_limit_of (_config self)))
                (Some agent) (seeded self query) w) as ([appended Happ] & _);
      [done|].
    rewrite Happ in Hmem. injection Hmem as <-.
    unfold seeded, LangGraph.get. rewrite Hthread. simpl.
    destruct (_memory self !! _thread_id self) as [old|] eqn:Hold.
    + destruct (IH _ _ Hold) as (q & rest & ->). simpl. eauto.
    + simpl. eauto.
  - unfold start_new_conversation in Hnew. simpl in Hnew.
    injection Hnew as <- <-. simpl in *. by eapply IH.
  - by eapply IH.
Qed.

(** *** Tool calls and their answers *)

Lemma well_answered_app (l1 l2 : list Message) :
  well_answered l1 → well_answered l2 → well_answered (l1 ++ l2).
Proof.
  induction 1 as [|m ms Hty Hcalls _ IH|text tcs tms ms Hids _ IH]; intros H2.
  - done.
  - simpl. by apply answered_plain; [..|apply IH].
  - simpl. rewrite <- app_assoc. by apply answered_calls; [|apply IH].
Qed.

Lemma injected_ids (self : Bot) (tool_calls : list ToolCall) :
  tc_id <$> (injected self <$> tool_calls) = tc_id <$> tool_calls.
Proof.
  rewrite <- list_fmap_compose. apply list_fmap_ext. intros _ tc _. simpl.
  unfold injected. by destruct (_tools_map self !! tc_name tc).
Qed.

Lemma loop_well_answered (self : Bot) steps :
  ∀ task channel (w : World),
    match task with
    | Some execute_tools =>
        ∃ init text tcs, channel = init ++ [AIMessage text tcs] ∧ well_answered init
    | _ => well_answered channel
    end →
    let r := LangGraph.loop (_setup_graph C self) steps task channel w in
    r.1.1 = LangGraph.done → well_answered r.1.2.
Proof.
  induction steps as [|steps IH]; intros task channel w Hpre; [done|].
  destruct task as [[|]|].
  - rewrite loop_agent. cbv zeta.
    set (input := llm_input C self channel).
    destruct (llm_invoke C (length (llm_log w)) input) as [text tcs].
    cbn [fst snd]. destruct tcs as [|tc tcs]; apply IH.
    + apply well_answered_app; [done|].
      apply answered_plain; [done|done|constructor].
    + eauto 10.
  - destruct Hpre as (init & text & tcs & -> & Hinit).
    destruct (loop_execute_tools C self steps init text tcs w)
      as (tool_messages & w' & _ & Hall & _ & _ & ->).
    apply IH. apply well_answered_app; [done|].
    rewrite <- (app_nil_r tool_messages). simpl. apply answered_calls; [|constructor].
    rewrite (resolved_ids self _ _ Hall).
    rewrite (list_fmap_compose tc_id Some), (list_fmap_compose tc_id Some).
    by rewrite injected_ids.
  - simpl. done.
Qed.

(** X7.  When every tool call of the persisted sequence is answered, a
    turn that returns leaves it so: in what it persists each assistant
    message with tool calls is followed by the tool-result messages of its
    calls, one for each and in their order. *)
Theorem returned_turn_answers_every_tool_call (self : Bot) (query : string)
    (w : World) (tid : string) :
  LangGraph.thread_id_of (_config self) = Some tid →
  (1 ≤ LangGraph.recursion_limit_of (_config self))%Z →
  (∀ old, _memory self !! tid = Some old → well_answered old) →
  let r := run C self query w in
  ∀ response, r.1.1 = Returned response →
    ∃ persisted,
      _memory r.1.2 !! tid = Some persisted ∧
      response = VDict {[ "messages" := VMessages persisted ]} ∧
      well_answered persisted.
Proof.
  intros Htid Hlimit Hold. rewrite (run_unfold C self query w tid Htid Hlimit).
  cbv zeta. cbn [fst snd set_memory _memory].
  intros response Hret. eexists. split; [by rewrite lookup_insert_eq|].
  pose proof (loop_well_answered self
                (Z.to_nat (LangGraph.recursion_limit_of (_config self)))
                (Some agent) (seeded self query) w) as Hwa.
  cbv zeta in Hwa.
  destruct (LangGraph.loop (_setup_graph C self) _ _ _ _).1.1; try done.
  split; [congruence|]. apply Hwa; [|done].
  unfold seeded, LangGraph.get. rewrite Htid. simpl.
  destruct (_memory self !! tid) as [old|] eqn:Hmem.
  - apply well_answered_app; [by apply Hold|].
    apply answered_plain; [done|done|constructor].
  - repeat (apply answered_plain; [done|done|]). constructor.
Qed.

(** *** The two tools, as the session invokes them *)

(** X8.  A call to "add_update_memory" with a "memory" argument first
    gets the client of the tools from [getlt_mem]; with the client it
    stores "Memory: <memory>" as an assistant statement for the user of
    the session, whatever "user_id" the model put among the arguments.
    The answer is the success text, or the error of [getlt_mem] or of the
    memory service.  Where the config file of the tools is missing, the
    answer is that error and nothing is stored. *)
Theorem add_update_memory_acts_for_session_user (self : Bot) (w : World)
    (tool_call : ToolCall) (memory : string) (s : Store) :
  reachable C self w →
  tc_name tool_call = "add_update_memory" →
  tc_args tool_call !! "memory" = Some memory →
  let tool_call' :=
    {| tc_name := tc_name tool_call;
       tc_args := <["user_id" := _user_id self]> (tc_args tool_call);
       tc_id := tc_id tool_call |} in
  let g := getlt_mem_in C s in
  let added client :=
    mem0_add C client g.2 "assistant" ("Memory: " +:+ memory) (_user_id self) in
  invoke_tool self tool_call s =
    (Returned
       (ToolMessage (tc_id tool_call)
          match g.1 with
          | Returned client =>
              match (added client).1 with
              | Returned _ => "Memory has been added successfully."
              | Raised e => "Error: " +:+ py_str e
              end
          | Raised e => "Error: " +:+ py_str e
          end),
     tool_call',
     match g.1 with
     | Returned client => (added client).2
     | Raised _ => g.2
     end) ∧
  (config_file C s = None →
   invoke_tool self tool_call s =
     (Returned
        (ToolMessage (tc_id tool_call)
           ("Error: " +:+ py_str (FileNotFoundError "config.yaml"))),
      tool_call', s)).
Proof.
  intros Hreach Hname Hmem. cbv zeta.
  assert (Hinvoke : invoke_tool self tool_call s =
            let r := ainvoke (add_update_memory C)
                       (<["user_id" := _user_id self]> (tc_args tool_call)) s in
            (Returned (ToolMessage (tc_id tool_call) (result_content r.1)),
             injected self tool_call, r.2)).
  { apply invoke_tool_registered.
    by rewrite (lookup_tool self w _ Hreach), Hname. }
  assert (Hinj : injected self tool_call =
            {| tc_name := tc_name tool_call;
               tc_args := <["user_id" := _user_id self]> (tc_args tool_call);
               tc_id := tc_id tool_call |}).
  { unfold injected. by rewrite (lookup_tool self w _ Hreach), Hname. }
  rewrite Hinvoke, Hinj. cbv zeta. simpl.
  rewrite lookup_insert_ne, Hmem, lookup_insert_eq by done.
  split.
  - destruct (getlt_mem_in C s) as [[client|e] s1]; [|done]. simpl.
    by destruct (mem0_add C client s1 _ _ _) as [[[]|e] s'].
  - intros Hfile. unfold getlt_mem_in, getlt_mem. rewrite Hfile.
    by destruct (tools_lt_mem C s).
Qed.

(** X9.  A call to "fetch_memory" with a "query" argument first gets the
    client of the tools from [getlt_mem]; with the client it searches the
    memories of the user of the session, whatever "user_id" the model put
    among the arguments.  The answer is what the search gives, or the error
    of [getlt_mem] or of the memory service.  Where the config file of the
    tools is missing, the answer is that error and nothing is searched. *)
Theorem fetch_memory_acts_for_session_user (self : Bot) (w : World)
    (tool_call : ToolCall) (query : string) (s : Store) :
  reachable C self w →
  tc_name tool_call = "fetch_memory" →
  tc_args tool_call !! "query" = Some query →
  let tool_call' :=
    {| tc_name := tc_name tool_call;
       tc_args := <["user_id" := _user_id self]> (tc_args tool_call);
       tc_id := tc_id tool_call |} in
  let g := getlt_mem_in C s in
  let found client := mem0_search C client g.2 query (_user_id self) in
  invoke_tool self tool_call s =
    (Returned
       (ToolMessage (tc_id tool_call)
          match g.1 with
          | Returned client =>
              match (found client).1 with
              | Returned memories => memories
              | Raised e => "Error: " +:+ py_str e
              end
          | Raised e => "Error: " +:+ py_str e
          end),
     tool_call',
     match g.1 with
     | Returned client => (found client).2
     | Raised _ => g.2
     end) ∧
  (config_file C s = None →
   invoke_tool self tool_call s =
     (Returned
        (ToolMessage (tc_id tool_call)
           ("Error: " +:+ py_str (FileNotFoundError "config.yaml"))),
      tool_call', s)).
Proof.
  intros Hreach Hname Hquery. cbv zeta.
  assert (Hinvoke : invoke_tool self tool_call s =
            let r := ainvoke (fetch_memory C)
                       (<["user_id" := _user_id self]> (tc_args tool_call)) s in
            (Returned (ToolMessage (tc_id tool_call) (result_content r.1)),
             injected self tool_call, r.2)).
  { apply invoke_tool_registered.
    by rewrite (lookup_tool self w _ Hreach), Hname. }
  assert (Hinj : injected self tool_call =
            {| tc_name := tc_name tool_call;
               tc_args := <["user_id" := _user_id self]> (tc_args tool_call);
               tc_id := tc_id tool_call |}).
  { unfold injected. by rewrite (lookup_tool self w _ Hreach), Hname. }
  rewrite Hinvoke, Hinj. cbv zeta. simpl.
  rewrite lookup_insert_ne, Hquery, lookup_insert_eq by done.
  split.
  - destruct (getlt_mem_in C s) as [[client|e] s1]; [|done]. simpl.
    by destruct (mem0_search C client s1 _ _) as [[memories|e] s'].
  - intros Hfile. unfold getlt_mem_in, getlt_mem. rewrite Hfile.
    by destruct (tools_lt_mem C s).
Qed.

(** X10.  A call to one of the two tools without the argument the tool
    needs ("memory", "query") is answered by the error of the argument
    validation, and the memory service is not reached. *)
Theorem missing_tool_argument_is_reported (self : Bot) (w : World)
    (tool_call : ToolCall) (s : Store) :
  reachable C self w →
  (tc_name tool_call = "add_update_memory" ∧ tc_args tool_call !! "memory" = None) ∨
  (tc_name tool_call = "fetch_memory" ∧ tc_args tool_call !! "query" = None) →
  invoke_tool self tool_call s =
    (Returned
       (ToolMessage (tc_id tool_call)
          ("Error: " +:+
           py_str (validation_error C (tc_name tool_call)
                     (<["user_id" := _user_id self]> (tc_args tool_call))))),
     {| tc_name := tc_name tool_call;
        tc_args := <["user_id" := _user_id self]> (tc_args tool_call);
        tc_id := tc_id tool_call |},
     s).
Proof.
  intros Hreach [[Hname Harg]|[Hname Harg]]; unfold invoke_tool;
    rewrite (lookup_tool self w _ Hreach), Hname; simpl;
    by rewrite lookup_insert_ne, Harg by done.
Qed.
End SessionExtras.

Lemma model_sees_whole_thread_without_limit_witness :
  let C := Demo.collaborators Demo.assistant_with_tools in
  let self := Demo.session None None in
  let r := run C self "hi" Demo.world1 in
  ∃ persisted,
    _memory r.1.2 !! "thread-0" = Some persisted ∧
    ∀ k input, (length (llm_log Demo.world1) ≤ k)%nat →
      llm_log r.2 !! k = Some input →
      seeded self "hi" `prefix_of` input ∧ input `prefix_of` persisted.
Proof.
  apply (model_sees_whole_thread_without_limit
           (Demo.collaborators Demo.assistant_with_tools)
           (Demo.session None None) "hi" Demo.world1 "thread-0").
  - reflexivity.
  - vm_compute. discriminate.
  - left. reflexivity.
Defined.

Lemma registry_holds_the_two_tools_witness :
  _tools_map (Demo.session None None) !! "fetch_memory" =
    if decide ("fetch_memory" = "fetch_memory")
    then Some (fetch_memory (Demo.collaborators Demo.greeter))
    else if decide ("fetch_memory" = "add_update_memory")
         then Some (add_update_memory (Demo.collaborators Demo.greeter))
         else None.
Proof.
  apply (registry_holds_the_two_tools (Demo.collaborators Demo.greeter)
           (Demo.session None None) Demo.world1 "fetch_memory").
  apply demo_session_reachable.
Defined.

Lemma constructor_returns_when_model_is_built_witness :
  ∃ self,
    (__init__ (Demo.collaborators Demo.greeter) "ann" (Demo.config None None)
       Demo.world).1 = Returned self.
Proof.
  destruct (constructor_returns_when_model_is_built
              (Demo.collaborators Demo.greeter) "ann" (Demo.config None None)
              Demo.world) as [Hreturns _].
  apply Hreturns. split; [by eexists|]. eexists. split_and!; reflexivity.
Defined.

(** Under the limit of 2 the model is called once: the tools run, and the
    turn is out of steps. *)
Lemma turn_calls_are_bounded_witness :
  let C := Demo.collaborators Demo.three_rounds in
  let self := Demo.session None (Some 2%Z) in
  let r := run C self "hi" Demo.world1 in
  ∃ calls,
    length (llm_log r.2) = (length (llm_log Demo.world1) + calls)%nat ∧
    (1 ≤ calls ≤ (Z.to_nat (LangGraph.recursion_limit_of (_config self)) + 1) `div` 2)%nat ∧
    (r.1.1 = Raised (GraphRecursionError
                       (LangGraph.recursion_limit_of (_config self))) →
     calls = ((Z.to_nat (LangGraph.recursion_limit_of (_config self)) + 1) `div` 2)%nat).
Proof.
  apply (turn_calls_are_bounded (Demo.collaborators Demo.three_rounds)
           (Demo.session None (Some 2%Z)) "hi" Demo.world1 "thread-0").
  - reflexivity.
  - vm_compute. discriminate.
Defined.

Lemma old_threads_are_kept_witness :
  let C := Demo.collaborators Demo.greeter in
  let self := Demo.session None None in
  let n := start_new_conversation C self Demo.world1 in
  (∀ query tid, tid ≠ _thread_id self →
     _memory (run C self query Demo.world1).1.2 !! tid = _memory self !! tid) ∧
  _memory n.1 = _memory self ∧
  _thread_id n.1 ≠ _thread_id self ∧
  (∀ query,
     _memory (run C n.1 query n.2).1.2 !! _thread_id self
       = _memory self !! _thread_id self).
Proof.
  apply (old_threads_are_kept (Demo.collaborators Demo.greeter)
           (Demo.session None None) Demo.world1).
  - apply demo_uuid4_inj.
  - apply demo_session_reachable.
Defined.

(** The session after its first turn. *)
Lemma demo_after_turn_reachable :
  reachable (Demo.collaborators Demo.greeter)
    (run (Demo.collaborators Demo.greeter) (Demo.session None None) "hi"
       Demo.world1).1.2
    (run (Demo.collaborators Demo.greeter) (Demo.session None None) "hi"
       Demo.world1).2.
Proof.
  apply (reach_run _ (Demo.session None None) Demo.world1 "hi"
           (run (Demo.collaborators Demo.greeter) (Demo.session None None) "hi"
              Demo.world1).1.1); [apply demo_session_reachable|].
  by destruct (run (Demo.collaborators Demo.greeter) _ _ _) as [[? ?] ?].
Qed.

Lemma persisted_begins_with_prompt_witness :
  let C := Demo.collaborators Demo.greeter in
  let self := (run C (Demo.session None None) "hi" Demo.world1).1.2 in
  ∃ query rest,
    [SystemMessage "You are helpful."; HumanMessage "hi"; AIMessage "Hello!" []]
      = SystemMessage (_system_prompt self) :: HumanMessage query :: rest.
Proof.
  apply (persisted_begins_with_prompt (Demo.collaborators Demo.greeter)
           (run (Demo.collaborators Demo.greeter) (Demo.session None None) "hi"
              Demo.world1).1.2
           (run (Demo.collaborators Demo.greeter) (Demo.session None None) "hi"
              Demo.world1).2
           "thread-0").
  - apply demo_after_turn_reachable.
  - vm_compute. reflexivity.
Defined.

Lemma returned_turn_answers_every_tool_call_witness :
  let C := Demo.collaborators Demo.assistant_with_tools in
  let self := Demo.session None None in
  let r := run C self "hi" Demo.world1 in
  ∃ persisted,
    _memory r.1.2 !! "thread-0" = Some persisted ∧
    r.1.1 = Returned (VDict {[ "messages" := VMessages persisted ]}) ∧
    well_answered persisted.
Proof.
  edestruct (returned_turn_answers_every_tool_call
               (Demo.collaborators Demo.assistant_with_tools)
               (Demo.session None None) "hi" Demo.world1 "thread-0")
    as (persisted & Hmem & Hresponse & Hanswered).
  - reflexivity.
  - vm_compute. discriminate.
  - intros old Hold. vm_compute in Hold. discriminate.
  - vm_compute. reflexivity.
  - exists persisted. split; [exact Hmem|]. split; [|exact Hanswered].
    rewrite <- Hresponse. vm_compute. reflexivity.
Defined.

Lemma process_session_reachable (s : Process.Store) :
  reachable Process.collaborators Process.session
    (draw_uuid Process.collaborators (Process.world s)).2.
Proof.
  apply (reach_init _ "ann" (Demo.config None None) (Process.world s)).
  reflexivity.
Qed.

(** The model asks to store a fact for another user: with the config file
    in place the client is made and the fact is stored for the user of the
    session; in the repository as it is, the tool answers that the file is
    not there. *)
Lemma add_update_memory_acts_for_session_user_witness :
  (∃ made,
     mem_config Startup.config_yaml = Returned made ∧
     invoke_tool Process.session Process.remember_for_bob Process.installed =
       (Returned (ToolMessage "call_1" "Memory has been added successfully."),
        {| tc_name := "add_update_memory";
           tc_args := {[ "memory" := "likes tea"; "user_id" := "ann" ]};
           tc_id := "call_1" |},
        {| Process.file := Some Startup.config_yaml;
           Process.client := Some made;
           Process.facts := [("ann", "Memory: likes tea")] |})) ∧
  invoke_tool Process.session Process.remember_for_bob Process.shipped =
    (Returned
       (ToolMessage "call_1"
          "Error: [Errno 2] No such file or directory: 'config.yaml'"),
     {| tc_name := "add_update_memory";
        tc_args := <["user_id" := "ann"]> (tc_args Process.remember_for_bob);
        tc_id := "call_1" |},
     Process.shipped).
Proof.
  split.
  - eexists. split; [reflexivity|].
    etrans;
      [exact (proj1 (add_update_memory_acts_for_session_user
                       Process.collaborators Process.session _
                       Process.remember_for_bob "likes tea" Process.installed
                       (process_session_reachable Process.installed)
                       eq_refl eq_refl))|].
    vm_compute. reflexivity.
  - exact (proj2 (add_update_memory_acts_for_session_user
                    Process.collaborators Process.session _
                    Process.remember_for_bob "likes tea" Process.shipped
                    (process_session_reachable Process.shipped)
                    eq_refl eq_refl) eq_refl).
Defined.

(** A search after a fact has been stored, by the client made then; and in
    the repository as it is. *)
Lemma fetch_memory_acts_for_session_user_witness :
  let stored :=
    (invoke_tool Process.session Process.remember_for_bob Process.installed).2 in
  (invoke_tool Process.session Demo.recall stored).1.1
    = Returned (ToolMessage "call_2" "Memory: likes tea") ∧
  invoke_tool Process.session Demo.recall Process.shipped =
    (Returned
       (ToolMessage "call_2"
          "Error: [Errno 2] No such file or directory: 'config.yaml'"),
     {| tc_name := "fetch_memory";
        tc_args := <["user_id" := "ann"]> (tc_args Demo.recall);
        tc_id := "call_2" |},
     Process.shipped).
Proof.
  split.
  - rewrite (proj1 (fetch_memory_acts_for_session_user
                      Process.collaborators Process.session _
                      Demo.recall "tea"
                      (invoke_tool Process.session Process.remember_for_bob
                         Process.installed).2
                      (process_session_reachable Process.installed)
                      eq_refl eq_refl)).
    vm_compute. reflexivity.
  - exact (proj2 (fetch_memory_acts_for_session_user
                    Process.collaborators Process.session _
                    Demo.recall "tea" Process.shipped
                    (process_session_reachable Process.shipped)
                    eq_refl eq_refl) eq_refl).
Defined.

(** The model calls "fetch_memory" with a "memory" and no "query". *)
Lemma missing_tool_argument_is_reported_witness :
  let C := Demo.collaborators Demo.greeter in
  let self := Demo.session None None in
  let tool_call :=
    {| tc_name := "fetch_memory"; tc_args := {[ "memory" := "tea" ]};
       tc_id := "call_4" |} in
  invoke_tool self tool_call [] =
    (Returned
       (ToolMessage (tc_id tool_call)
          ("Error: " +:+
           py_str (validation_error C (tc_name tool_call)
                     (<["user_id" := _user_id self]> (tc_args tool_call))))),
     {| tc_name := tc_name tool_call;
        tc_args := <["user_id" := _user_id self]> (tc_args tool_call);
        tc_id := tc_id tool_call |},
     []).
Proof.
  apply (missing_tool_argument_is_reported
           (Demo.collaborators Demo.greeter) (Demo.session None None) Demo.world1
           {| tc_name := "fetch_memory"; tc_args := {[ "memory" := "tea" ]};
              tc_id := "call_4" |} []).
  - apply demo_session_reachable.
  - right. split; reflexivity.
Defined.

(* ===================================================================== *)
(** ** More about the chat loop *)
(* ===================================================================== *)

Section ChatLoop.
Context {Store : Type} (C : Collaborators Store).

Abbreviation Bot := (AgenticChatBot Store).
Abbreviation World := (Env Store).





(** X13.  The commands are handled by the loop alone: inputs that are all
    commands, in whatever case, call no model and persist nothing. *)
Theorem commands_do_not_reach_the_model (inputs : list string) (bot : Bot)
    (w : World) (panel : Panel) :
  Forall (λ i, lower i ∈ COMMANDS) inputs →
  let r := chat_loop C inputs bot w panel in
  llm_log r.2 = llm_log w ∧ _memory r.1.2 = _memory bot ∧
  _user_id r.1.2 = _user_id bot.
Proof.
  intros Hall. revert bot w panel.
  induction Hall as [|x inputs Hx _ IH]; intros bot w panel; [done|].
  cbn [chat_loop]. cbv zeta. rewrite (bool_decide_eq_true_2 _ Hx).
  destruct (bool_decide (lower x = "/exit")); [done|].
  destruct (bool_decide (lower x = "/new")).
  - unfold start_new_conversation. cbn [draw_uuid].
    edestruct IH as (-> & -> & ->). done.
  - destruct (bool_decide (lower x = "/clear")).
    + unfold clear_memory.
      destruct (mem0_delete_all C (lt_mem w) (_user_id bot)) as [[[]|e] s'];
        edestruct IH as (-> & -> & ->); done.
    + apply IH.
Qed.

(** X14.  Every session the loop gets to is one the public API leads to,
    so that what holds of those sessions holds at the terminal. *)
Theorem chat_loop_keeps_reachable (inputs : list string) (bot : Bot)
    (w : World) (panel : Panel) :
  reachable C bot w →
  reachable C (chat_loop C inputs bot w panel).1.2
    (chat_loop C inputs bot w panel).2.
Proof.
  revert bot w panel. induction inputs as [|x inputs IH]; intros bot w panel Hr;
    [done|].
  cbn [chat_loop]. cbv zeta.
  destruct (bool_decide (lower x ∈ COMMANDS)).
  - destruct (bool_decide (lower x = "/exit")); [done|].
    destruct (bool_decide (lower x = "/new")).
    + destruct (start_new_conversation C bot w) as [bot' w'] eqn:Hnew.
      apply IH. by eapply reach_new.
    + destruct (bool_decide (lower x = "/clear")).
      * destruct (clear_memory C bot w) as [[[]|e] w'] eqn:Hclear;
          apply IH; by eapply reach_clear.
      * by apply IH.
  - unfold chat_interaction.
    destruct (run C bot x w) as [[response bot'] w'] eqn:Hrun.
    apply IH. by eapply reach_run.
Qed.
End ChatLoop.



Lemma commands_do_not_reach_the_model_witness :
  let r := chat_loop (Demo.collaborators Demo.greeter)
             ["/commands"; "/NEW"; "/clear"; "/exit"]
             (Demo.session None None) Demo.world1 SessionStarted in
  llm_log r.2 = llm_log Demo.world1 ∧
  _memory r.1.2 = _memory (Demo.session None None) ∧
  _user_id r.1.2 = _user_id (Demo.session None None).
Proof.
  apply (commands_do_not_reach_the_model (Demo.collaborators Demo.greeter)
           ["/commands"; "/NEW"; "/clear"; "/exit"]
           (Demo.session None None) Demo.world1 SessionStarted).
  repeat constructor; vm_compute; set_solver.
Defined.

Lemma chat_loop_keeps_reachable_witness :
  reachable (Demo.collaborators Demo.greeter)
    (chat_loop (Demo.collaborators Demo.greeter) ["hi"; "/new"; "hello"]
       (Demo.session None None) Demo.world1 SessionStarted).1.2
    (chat_loop (Demo.collaborators Demo.greeter) ["hi"; "/new"; "hello"]
       (Demo.session None None) Demo.world1 SessionStarted).2.
Proof.
  apply (chat_loop_keeps_reachable (Demo.collaborators Demo.greeter)
           ["hi"; "/new"; "hello"] (Demo.session None None) Demo.world1
           SessionStarted).
  apply demo_session_reachable.
Defined.

(* ===================================================================== *)
(** ** The memory client, the login and the containers *)
(* ===================================================================== *)

(** X15.  [getlt_mem] builds the memory client once: after a call that
    returned a client, every later call returns that same client and builds
    none, whatever the config file has become, as long as the file is there
    and has the seven entries; the file is read and looked up before the
    client is, so that a call raises on a missing file or entry even
    then. *)
Theorem getlt_mem_keeps_the_first_client {Client : Type}
    (from_config from_config' : MemConfig → Outcome Client)
    (config_file config_file' : option Yaml) (lt_mem lt_mem' : option Client)
    (client : Client) :
  getlt_mem from_config config_file lt_mem = (Returned client, lt_mem') →
  lt_mem' = Some client ∧
  getlt_mem from_config' config_file' lt_mem' =
    (match config_file' with
     | None => Raised (FileNotFoundError "config.yaml")
     | Some config =>
         match mem_config config with
         | Returned _ => Returned client
         | Raised e => Raised e
         end
     end, lt_mem').
Proof.
  unfold getlt_mem. intros Hfirst.
  assert (Hclient : lt_mem' = Some client).
  { destruct config_file as [config|]; [|done].
    destruct (mem_config config); [|done].
    destruct lt_mem as [c|].
    - by injection Hfirst as <- <-.
    - destruct (from_config a); [|done]. by injection Hfirst as <- <-. }
  split; [done|]. subst lt_mem'.
  destruct config_file' as [config'|]; [|done].
  by destruct (mem_config config').
Qed.

(** X16.  A login is remembered: whatever a login that returned a user
    did, prompt or not, the next login without [--relogin] returns the same
    user, asks nothing and leaves the profile as it is. *)
Theorem login_is_remembered (relogin : bool) (t t' : Terminal) (user_id : string) :
  handle_user_login relogin t = (Returned user_id, t') →
  handle_user_login false t' = (Returned user_id, t').
Proof.
  unfold handle_user_login. intros Hlogin.
  assert (Hprompt :
    match typed t with
    | [] => (Raised (Error "EOF when reading a line"), t)
    | u :: rest =>
        (Returned u, {| profile := Some {[ "user_id" := u ]}; typed := rest |})
    end = (Returned user_id, t') →
    match profile t' with
    | Some config =>
        match config !! "user_id" with
        | Some u => (Returned u, t')
        | None => (Raised (KeyError "user_id"), t')
        end
    | None =>
        match typed t' with
        | [] => (Raised (Error "EOF when reading a line"), t')
        | u :: rest =>
            (Returned u, {| profile := Some {[ "user_id" := u ]}; typed := rest |})
        end
    end = (Returned user_id, t')).
  { destruct (typed t) as [|u rest]; [done|]. intros [= -> <-]. simpl.
    by rewrite lookup_singleton_eq. }
  destruct relogin; [by apply Hprompt|].
  destruct (profile t) as [config|] eqn:Hp; [|by apply Hprompt].
  destruct (config !! "user_id") as [u|] eqn:Hu; [|done].
  injection Hlogin as <- <-. by rewrite Hp, Hu.
Qed.


Section ContainerFacts.
Context {Daemon Container : Type}.
Context (containers_run : RunSpec → Daemon → Outcome Container * Daemon).

(** X18.  [initialize_containers] returns a list only when both
    containers started, Neo4j first and Qdrant on the daemon that runs
    Neo4j; the list is then Qdrant's container followed by Neo4j's, and
    nothing was printed. *)
Theorem containers_returned_when_both_started (d : Daemon) (config : Yaml)
    (containers : list Container) :
  (initialize_containers containers_run (Some d) (Some config)).1.1
    = Returned containers ↔
  ∃ neo4j_run qdrant_run neo4j qdrant d1 d2,
    neo4j_spec config = Returned neo4j_run ∧
    containers_run neo4j_run d = (Returned neo4j, d1) ∧
    qdrant_spec config = Returned qdrant_run ∧
    containers_run qdrant_run d1 = (Returned qdrant, d2) ∧
    containers = [qdrant; neo4j] ∧
    initialize_containers containers_run (Some d) (Some config)
      = (Returned [qdrant; neo4j], Some d2, []).
Proof.
  unfold initialize_containers, try_run. split.
  - destruct (neo4j_spec config) as [nspec|e]; simpl.
    + destruct (containers_run nspec d) as [[neo4j|e] d1] eqn:Hn; simpl.
      * destruct (qdrant_spec config) as [qspec|e]; simpl; [|done].
        destruct (containers_run qspec d1) as [[qdrant|e] d2] eqn:Hq; simpl;
          [|done].
        intros [= <-]. eauto 12.
      * destruct (qdrant_spec config) as [qspec|e']; simpl; [|done].
        by destruct (containers_run qspec d1) as [[qdrant|e'] d2].
    + destruct (qdrant_spec config) as [qspec|e']; simpl; [|done].
      by destruct (containers_run qspec d) as [[qdrant|e'] d2].
  - intros (nspec & qspec & neo4j & qdrant & d1 & d2 & -> & Hn & -> & Hq & -> & _).
    simpl. rewrite Hn. simpl. by rewrite Hq.
Qed.
End ContainerFacts.

(** The client made from the first file is returned after the file has
    changed, by a backend that is out of reach by then; with the vector
    store taken out of the file the call raises. *)
Lemma getlt_mem_keeps_the_first_client_witness :
  let first := getlt_mem Startup.from_config (Some Startup.config_yaml) None in
  ∃ client,
    first = (Returned client, Some client) ∧
    getlt_mem Startup.unreachable (Some Startup.clashing_yaml) first.2
      = (Returned client, Some client) ∧
    getlt_mem Startup.unreachable (Some Startup.graph_only_yaml) first.2
      = (Raised (KeyError "vector_store"), Some client).
Proof.
  eexists. split; [reflexivity|]. split.
  - exact (proj2 (getlt_mem_keeps_the_first_client Startup.from_config
             Startup.unreachable (Some Startup.config_yaml)
             (Some Startup.clashing_yaml) None _ _ eq_refl)).
  - exact (proj2 (getlt_mem_keeps_the_first_client Startup.from_config
             Startup.unreachable (Some Startup.config_yaml)
             (Some Startup.graph_only_yaml) None _ _ eq_refl)).
Defined.

Lemma login_is_remembered_witness :
  let t := {| profile := None; typed := ["ann"; "bob"] |} in
  handle_user_login true t
    = (Returned "ann", {| profile := Some {[ "user_id" := "ann" ]}; typed := ["bob"] |}) ∧
  handle_user_login false (handle_user_login true t).2
    = (Returned "ann", {| profile := Some {[ "user_id" := "ann" ]}; typed := ["bob"] |}).
Proof.
  split; [reflexivity|].
  apply (login_is_remembered true {| profile := None; typed := ["ann"; "bob"] |}).
  reflexivity.
Defined.


Lemma containers_returned_when_both_started_witness :
  ∃ neo4j_run qdrant_run neo4j qdrant d1 d2,
    neo4j_spec Startup.config_yaml = Returned neo4j_run ∧
    Startup.containers_run neo4j_run [] = (Returned neo4j, d1) ∧
    qdrant_spec Startup.config_yaml = Returned qdrant_run ∧
    Startup.containers_run qdrant_run d1 = (Returned qdrant, d2) ∧
    [6333%Z; 7474%Z] = [qdrant; neo4j] ∧
    initialize_containers Startup.containers_run (Some []) (Some Startup.config_yaml)
      = (Returned [qdrant; neo4j], Some d2, []).
Proof.
  exact (proj1 (containers_returned_when_both_started Startup.containers_run
                  [] Startup.config_yaml [6333%Z; 7474%Z]) eq_refl).
Defined.

